(** * Gmail-Agent-2: a shallow embedding of the Gmail/Calendar tool functions

    The development follows the Python sources
      - [src/utils.py]                       ([format_gmail_markdown])
      - [src/tools/gmailapi/gmail_tools.py]  ([get_credentials],
        [fetch_group_emails], [send_email], [get_calendar_events])

    Python values are typed records; exceptions are values of [exn] carried
    by the [result] monad; calls to the provider SDK and to library parsers
    are functions supplied by the caller of each model function. *)

From Stdlib Require Import ZArith List String Ascii Bool Lia Sorted DecimalString.
Import ListNotations.
Local Open Scope string_scope.
Local Set Warnings "-register-all".

(** ** Python runtime: exceptions, results, strings *)
Module Py.

(** The exception classes the modelled code raises or catches; each one is
    a subclass of Python's [Exception].  The payload is the text that
    [str(e)] returns. *)
Inductive exn : Type :=
| ValueError (msg : string)
| KeyError (msg : string)
| TypeError (msg : string)
| IndexError (msg : string)
| AttributeError (msg : string)
| StopIteration
| JSONDecodeError (msg : string)
| HttpError (msg : string)
| OSError (msg : string).

Definition str_exn (e : exn) : string :=
  match e with
  | ValueError m | KeyError m | TypeError m | IndexError m
  | AttributeError m | JSONDecodeError m | HttpError m | OSError m => m
  | StopIteration => ""
  end.

Inductive result (A : Type) : Type :=
| Ok (a : A)
| Raise (e : exn).
Arguments Ok {A} a.
Arguments Raise {A} e.

Definition bind {A B : Type} (r : result A) (k : A -> result B) : result B :=
  match r with
  | Ok a => k a
  | Raise e => Raise e
  end.

(** The newline character, ["\n"]. *)
Definition nl : string := String (ascii_of_nat 10) EmptyString.

(** Truthiness of a [str]: the empty string is falsy. *)
Definition truthy (s : string) : bool :=
  match s with EmptyString => false | String _ _ => true end.

(** [s.startswith(p)] *)
Fixpoint startswith (s p : string) {struct p} : bool :=
  match p with
  | EmptyString => true
  | String a p' =>
      match s with
      | EmptyString => false
      | String b s' => Ascii.eqb a b && startswith s' p'
      end
  end.

(** [needle in hay] for two strings *)
Fixpoint str_in (needle hay : string) : bool :=
  startswith hay needle ||
  match hay with
  | EmptyString => false
  | String _ hay' => str_in needle hay'
  end.

(** [str.isspace] on a code point below 256: the characters that
    [str.strip()] removes. *)
Definition is_space (c : ascii) : bool :=
  let n := nat_of_ascii c in
  (Nat.leb 9 n && Nat.leb n 13) || (Nat.leb 28 n && Nat.leb n 32)
  || Nat.eqb n 133 || Nat.eqb n 160.

Fixpoint lstrip (s : string) : string :=
  match s with
  | EmptyString => EmptyString
  | String c s' => if is_space c then lstrip s' else s
  end.

Fixpoint rstrip (s : string) : string :=
  match s with
  | EmptyString => EmptyString
  | String c s' =>
      match rstrip s' with
      | EmptyString => if is_space c then EmptyString else String c EmptyString
      | t => String c t
      end
  end.

Definition strip (s : string) : string := rstrip (lstrip s).

(** [sep.join(parts)] *)
Fixpoint join (sep : string) (parts : list string) : string :=
  match parts with
  | [] => ""
  | [p] => p
  | p :: rest => p ++ sep ++ join sep rest
  end.

(** [next(x for x in l if p x)]: the first match, [StopIteration] when no
    element matches. *)
Definition next_where {A : Type} (p : A -> bool) (l : list A) : result A :=
  match find p l with
  | Some a => Ok a
  | None => Raise StopIteration
  end.

End Py.

Module PyNotations.
Notation "x <- r ;; k" := (Py.bind r (fun x => k))
  (at level 61, r at next level, right associativity).
Notation "' pat <- r ;; k" := (Py.bind r (fun x => match x with pat => k end))
  (at level 61, pat pattern, r at next level, right associativity).
End PyNotations.
Import PyNotations.

(** ** [src/utils.py]: [format_gmail_markdown] *)
Module Format.
Import Py.

(** [f"{x}"] for a value that is a [str] or [None]. *)
Definition fmt (x : option string) : string :=
  match x with
  | Some s => s
  | None => "None"
  end.

(** The test of the [if] statement:
    [email_thread and (email_thread.strip().startswith("<!DOCTYPE") or
     email_thread.strip().startswith("<html") or "<body" in email_thread)] *)
Definition html_detected (email_thread : option string) : bool :=
  match email_thread with
  | None => false
  | Some body =>
      truthy body &&
      (startswith (strip body) "<!DOCTYPE"
       || startswith (strip body) "<html"
       || str_in "<body" body)
  end.

(** The f-string of the [return] statement. *)
Definition markdown_template (subject author to id_section : string)
    (email_thread : option string) : string :=
  nl ++ "        **Subject**: " ++ subject ++
  nl ++ "        **From**: " ++ author ++
  nl ++ "        **To**: " ++ to ++ id_section ++
  nl ++ "        " ++ fmt email_thread ++
  nl ++ "        ---" ++
  nl ++ "    ".

(** [f"\n**ID**: {email_id}" if email_id else ""] *)
Definition id_section (email_id : option string) : string :=
  match email_id with
  | Some i => if truthy i then nl ++ "**ID**: " ++ i else ""
  | None => ""
  end.

Section WithHtml2Text.
(** [html2text.HTML2Text().handle] with [ignore_links = False],
    [ignore_images = True], [body_width = 0]. *)
Variable handle : string -> string.

Definition format_gmail_markdown (subject author to : string)
    (email_thread : option string) (email_id : option string) : string :=
  let id_section := id_section email_id in
  let email_thread :=
    if html_detected email_thread
    then option_map handle email_thread
    else email_thread in
  markdown_template subject author to id_section email_thread.
End WithHtml2Text.

(** The classification in the words of the specification: the body
    contains a doctype, html or body tag. *)
Definition spec_contains_html_marker (body : string) : bool :=
  str_in "<!DOCTYPE" body || str_in "<html" body || str_in "<body" body.

(** What the code tests, as a proposition on the body text. *)
Definition html_marked (body : string) : Prop :=
  body <> "" /\
  ((exists t, strip body = "<!DOCTYPE" ++ t) \/
   (exists t, strip body = "<html" ++ t) \/
   (exists a b, body = a ++ "<body" ++ b)).

End Format.

(** ** [gmail_tools.py]: [get_credentials] *)
Module Credentials.
Import Py.

(** A decoded JSON document, which is also the Python value that
    [json.loads] returns: [JNull] is Python's [None]. *)
Inductive json : Type :=
| JNull
| JBool (b : bool)
| JNum (n : Z)
| JStr (s : string)
| JList (l : list json)
| JDict (d : list (string * json)).

Definition is_none (v : json) : bool :=
  match v with JNull => true | _ => false end.

(** Truthiness of a decoded value. *)
Definition json_truthy (v : json) : bool :=
  match v with
  | JNull => false
  | JBool b => b
  | JNum n => negb (Z.eqb n 0)
  | JStr s => truthy s
  | JList l => match l with [] => false | _ => true end
  | JDict d => match d with [] => false | _ => true end
  end.

Definition type_name (v : json) : string :=
  match v with
  | JNull => "NoneType"
  | JBool _ => "bool"
  | JNum _ => "int"
  | JStr _ => "str"
  | JList _ => "list"
  | JDict _ => "dict"
  end.

(** [d.get(key, default)] on a dict held as its list of items. *)
Fixpoint dict_get (d : list (string * json)) (key : string) (default : json) : json :=
  match d with
  | [] => default
  | (k, v) :: d' => if String.eqb k key then v else dict_get d' key default
  end.

(** [v.get(key, default)]: only a dict has the method. *)
Definition get (v : json) (key : string) (default : json) : result json :=
  match v with
  | JDict d => Ok (dict_get d key default)
  | _ => Raise (AttributeError
                  ("'" ++ type_name v ++ "' object has no attribute 'get'"))
  end.

(** The [gmail_token] argument: [None], a [str], or an already decoded
    object (the [isinstance(gmail_token, str)] test separates the last
    two). *)
Inductive token_arg : Type :=
| ArgNone
| ArgStr (s : string)
| ArgObj (v : json).

Definition arg_truthy (a : token_arg) : bool :=
  match a with
  | ArgNone => false
  | ArgStr s => truthy s
  | ArgObj v => json_truthy v
  end.

(** The state of [.secrets/token.json]: [token_path.exists()] is false,
    or opening/reading raises, or the file has a content. *)
Inductive token_file : Type :=
| FileAbsent
| FileUnreadable (e : exn)
| FileContent (text : string).

(** [google.oauth2.credentials.Credentials], by its constructor
    arguments. *)
Record credentials : Type := Credentials {
  token : json;
  refresh_token : json;
  token_uri : json;
  client_id : json;
  client_secret : json;
  scopes : json
}.

Definition no_credentials_message : string :=
  "No Gmail credentials found. Please provide credentials via:" ++ nl ++
  "1. gmail_token parameter" ++ nl ++
  "2. GMAIL_TOKEN environment variable" ++ nl ++
  "3. .secrets/token.json file".

Section WithJson.
(** [json.loads] (and [json.load] on a file's text): [None] stands for
    [json.JSONDecodeError]. *)
Variable json_loads : string -> option json.

(** Lines 110-119: the [Credentials(...)] call. *)
Definition make_credentials (token_data : json) : result credentials :=
  tok <- get token_data "token" JNull ;;
  refresh <- get token_data "refresh_token" JNull ;;
  uri <- get token_data "token_uri" (JStr "https://oauth2.googleapis.com/token") ;;
  cid <- get token_data "client_id" JNull ;;
  secret <- get token_data "client_secret" JNull ;;
  sc <- get token_data "scopes"
          (JList [JStr "https://www.googleapis.com/auth/gmail.modify"]) ;;
  Ok (Credentials tok refresh uri cid secret sc).

Definition get_credentials (gmail_token : token_arg)
    (env_token : option string) (file : token_file) : result credentials :=
  let token_data := JNull in
  (* Try directly passed token parameter *)
  let token_data :=
    if arg_truthy gmail_token then
      match gmail_token with
      | ArgStr s =>
          match json_loads s with
          | Some v => v
          | None => token_data
          end
      | ArgObj v => v
      | ArgNone => token_data
      end
    else token_data in
  (* Try environment variable *)
  let token_data :=
    if is_none token_data then
      match env_token with
      | Some env =>
          if truthy env then
            match json_loads env with
            | Some v => v
            | None => token_data
            end
          else token_data
      | None => token_data
      end
    else token_data in
  (* Try local file *)
  let token_data :=
    if is_none token_data then
      match file with
      | FileContent text =>
          match json_loads text with
          | Some v => v
          | None => token_data
          end
      | FileUnreadable _ => token_data
      | FileAbsent => token_data
      end
    else token_data in
  (* Raise error if no credentials found *)
  if is_none token_data then Raise (ValueError no_credentials_message)
  else make_credentials token_data.

(** *** The resolution in the words of the specification *)

(** What each source offers: the decoded content when the source is
    supplied and its content parses as JSON. *)
Definition param_offer (gmail_token : token_arg) : option json :=
  match gmail_token with
  | ArgNone => None
  | ArgStr s => if truthy s then json_loads s else None
  | ArgObj v => if json_truthy v then Some v else None
  end.

Definition env_offer (env_token : option string) : option json :=
  match env_token with
  | Some env => if truthy env then json_loads env else None
  | None => None
  end.

Definition file_offer (file : token_file) : option json :=
  match file with
  | FileContent text => json_loads text
  | FileUnreadable _ => None
  | FileAbsent => None
  end.

Fixpoint first_available (offers : list (option json)) : option json :=
  match offers with
  | [] => None
  | Some v :: _ => Some v
  | None :: rest => first_available rest
  end.

(** The specification's reading: a source is available when it parses. *)
Definition spec_get_credentials (gmail_token : token_arg)
    (env_token : option string) (file : token_file) : result credentials :=
  match first_available
          [param_offer gmail_token; env_offer env_token; file_offer file] with
  | Some v => make_credentials v
  | None => Raise (ValueError no_credentials_message)
  end.

(** A source whose content decodes to [null] offers nothing either. *)
Definition non_null (o : option json) : option json :=
  match o with
  | Some v => if is_none v then None else Some v
  | None => None
  end.
End WithJson.

(** A decoder defined on the few documents the examples use. *)
Definition dq : string := String (ascii_of_nat 34) EmptyString.
Definition token_doc (t : string) : string :=
  "{" ++ dq ++ "token" ++ dq ++ ": " ++ dq ++ t ++ dq ++ "}".

Definition example_loads (s : string) : option json :=
  if String.eqb s "null" then Some JNull
  else if String.eqb s (token_doc "P") then Some (JDict [("token", JStr "P")])
  else if String.eqb s (token_doc "E") then Some (JDict [("token", JStr "E")])
  else if String.eqb s (token_doc "F") then Some (JDict [("token", JStr "F")])
  else None.

End Credentials.

(** ** The Gmail resources the tools read, and the service stub *)
Module Gmail.
Import Py.

Record header : Type := Header { name : string; value : string }.

(** A message payload: [headers] may be absent, [body.data] may be absent,
    a missing [parts] is the empty list. *)
Inductive payload : Type :=
| Payload (headers : option (list header)) (body_data : option string)
          (parts : list payload).

Definition headers (p : payload) : option (list header) :=
  match p with Payload h _ _ => h end.

(** An entry of [messages.list]: only identifiers. *)
Record message_ref : Type := MessageRef {
  ref_id : string;
  ref_threadId : string
}.

(** A full message, as returned by [messages.get] and inside a thread.
    [internalDate] is the provider's decimal text, when present. *)
Record message : Type := Message {
  id : string;
  threadId : string;
  internalDate : option string;
  msg_payload : payload
}.

Record thread : Type := Thread { messages : list message }.

Record list_response : Type := ListResponse {
  resp_messages : option (list message_ref);
  nextPageToken : option string
}.

(** The body of [messages.send]: the MIME message before its base64
    encoding, and the thread to attach it to. *)
Record mime_text : Type := MimeText {
  mime_to : string;
  mime_from : string;
  mime_subject : string;
  mime_cc : option string;
  mime_body : string
}.

Record send_body : Type := SendBody { raw : mime_text; body_threadId : string }.

(** [build("gmail", "v1", credentials=creds)]: each call may raise. *)
Record service : Type := Service {
  messages_list : string -> option string -> result list_response;
  messages_get : string -> result message;
  threads_get : string -> result thread;
  messages_send : send_body -> result string
}.

(** [h["name"] == key] *)
Definition named (key : string) (h : header) : bool := String.eqb (name h) key.

(** [next(h["value"] for h in headers if h["name"] == key)] *)
Definition header_value (key : string) (hs : list header) : result string :=
  h <- next_where (named key) hs ;; Ok (value h).

(** [next((h["value"] for h in headers if h["name"] == key), "")] *)
Definition header_value_or_empty (key : string) (hs : list header) : string :=
  match find (named key) hs with
  | Some h => value h
  | None => ""
  end.

(** [payload.get("headers", [])] *)
Definition get_headers (p : payload) : list header :=
  match headers p with Some hs => hs | None => [] end.

(** [payload["headers"]] *)
Definition index_headers (p : payload) : result (list header) :=
  match headers p with
  | Some hs => Ok hs
  | None => Raise (KeyError "'headers'")
  end.

(** [l[-1]] *)
Fixpoint last_item {A : Type} (l : list A) : result A :=
  match l with
  | [] => Raise (IndexError "list index out of range")
  | [a] => Ok a
  | _ :: l' => last_item l'
  end.

(** [list.sort(key=...)] on the keys already computed: a stable sort,
    written as insertion from the left. *)
Section Sort.
Context {K A : Type}.
Variable lt : K -> K -> bool.

Fixpoint insert (x : K * A) (l : list (K * A)) : list (K * A) :=
  match l with
  | [] => [x]
  | y :: l' => if lt (fst x) (fst y) then x :: y :: l' else y :: insert x l'
  end.

Definition sort_keyed (l : list (K * A)) : list (K * A) :=
  fold_left (fun acc x => insert x acc) l [].
End Sort.

(** The keys of a list, computed left to right; the first failure is
    raised. *)
Fixpoint with_keys {K A : Type} (key : A -> result K) (l : list A)
    : result (list (K * A)) :=
  match l with
  | [] => Ok []
  | a :: l' =>
      k <- key a ;;
      rest <- with_keys key l' ;;
      Ok ((k, a) :: rest)
  end.

(** Order of two keyed items by their integer keys. *)
Definition key_le {A : Type} (a b : Z * A) : Prop := (fst a <= fst b)%Z.

(** Order of two keyed items by their string keys: [a] does not come
    after [b]. *)
Definition id_le {A : Type} (a b : string * A) : Prop :=
  String.ltb (fst b) (fst a) = false.

End Gmail.

(** ** [gmail_tools.py]: [extract_message_part], [fetch_group_emails] *)
Module Fetch.
Import Py Gmail.

(** The dicts the generator yields: the short one for a thread the user
    already answered, and the full email record. *)
Record email_record : Type := EmailRecord {
  from_email : string;
  to_email : string;
  subject : string;
  page_content : string;
  rec_id : string;
  rec_thread_id : string;
  send_time : string
}.

Inductive yielded : Type :=
| Responded (msg_id thread_id : string)      (* with ["user_respond": True] *)
| Email (r : email_record).

(** What a consumer of the generator observes, in order: the yielded
    dicts and the [logger.warning] lines. *)
Inductive event : Type :=
| Yield (y : yielded)
| Warning (text : string).

Section WithLibraries.
(** [base64.urlsafe_b64decode(data).decode("utf-8")] *)
Variable b64decode_utf8 : string -> result string.
(** [int(text)]; [None] stands for [ValueError]. *)
Variable int_of_str : string -> option Z.
(** [dateutil.parser.parse(text).isoformat()] *)
Variable parse_time_iso : string -> result string.
(** [json.loads] for the credentials. *)
Variable json_loads : string -> option Credentials.json.
(** The service that [build] returns for the loaded credentials. *)
Variable svc : service.

Fixpoint extract_message_part (p : payload) : result string :=
  match p with
  | Payload _ body_data parts =>
      let data := match body_data with Some d => d | None => "" end in
      if truthy data then b64decode_utf8 data
      else
        match parts with
        | _ :: _ =>
            text_parts <-
              (fix each (ps : list payload) : result (list string) :=
                 match ps with
                 | [] => Ok []
                 | part :: ps' =>
                     content <- extract_message_part part ;;
                     rest <- each ps' ;;
                     Ok (if truthy content then content :: rest else rest)
                 end) parts ;;
            Ok (join nl text_parts)
        | [] => Ok ""
        end
  end.

Definition has_internalDate (m : message) : bool :=
  match internalDate m with Some _ => true | None => false end.

(** [int(m.get("internalDate", 0))] *)
Definition date_key (m : message) : result Z :=
  match internalDate m with
  | Some text =>
      match int_of_str text with
      | Some n => Ok n
      | None => Raise (ValueError "invalid literal for int()")
      end
  | None => Ok 0%Z
  end.

(** Lines 211-215: sort the thread's messages chronologically. *)
Definition sort_thread (messages_in_thread : list message) : result (list message) :=
  if forallb has_internalDate messages_in_thread then
    keyed <- with_keys date_key messages_in_thread ;;
    Ok (map snd (sort_keyed Z.ltb keyed))
  else
    Ok (map snd (sort_keyed String.ltb
                   (map (fun m => (id m, m)) messages_in_thread))).

(** [last] is the last message of a thread in the order the code gives
    it: it belongs to the thread; when every message carries
    [internalDate], no message of the thread has a later one (it is the
    chronologically last); when some message lacks [internalDate], no
    message of the thread has a greater [id]. *)
Definition latest_in (messages_in_thread : list message) (last : message) : Prop :=
  In last messages_in_thread /\
  (forallb has_internalDate messages_in_thread = true ->
   forall m, In m messages_in_thread ->
     exists k k_last,
       date_key m = Ok k /\ date_key last = Ok k_last /\ (k <= k_last)%Z) /\
  (forallb has_internalDate messages_in_thread = false ->
   forall m, In m messages_in_thread -> String.ltb (id last) (id m) = false).

(** Lines 201-222: the fetched message, the last message of its thread
    and that message's From header. *)
Definition thread_context (ref : message_ref)
    : result (message * message * string) :=
  msg <- messages_get svc (ref_id ref) ;;
  thread <- threads_get svc (threadId msg) ;;
  messages_in_thread <- sort_thread (messages thread) ;;
  last_message <- last_item messages_in_thread ;;
  last_headers <- index_headers (msg_payload last_message) ;;
  last_from <- header_value "From" last_headers ;;
  Ok (msg, last_message, last_from).

(** Lines 252-279: the record built from the chosen identifiers and
    payload. *)
Definition build_record (process_id process_threadId : string)
    (process_payload : payload) : result email_record :=
  let process_headers := get_headers process_payload in
  subject <- header_value "Subject" process_headers ;;
  let from_email := header_value_or_empty "From" process_headers in
  let to_email := header_value_or_empty "To" process_headers in
  let reply_to := header_value_or_empty "Reply-To" process_headers in
  let from_email := if truthy reply_to then reply_to else from_email in
  send_time <- header_value "Date" process_headers ;;
  parsed_time <- parse_time_iso send_time ;;
  body <- extract_message_part process_payload ;;
  Ok (EmailRecord (strip from_email) (strip to_email) subject body
        process_id process_threadId parsed_time).

(** The body of the [try] for one entry of the listing: [Ok None] when
    the entry is skipped by the filter, [Ok (Some y)] when [y] is
    yielded, [Raise e] when an exception reaches the [except] clause.
    No statement that can raise follows a [yield]. *)
Definition process_entry (email_address : string) (skip_filters : bool)
    (ref : message_ref) : result (option yielded) :=
  '(msg, last_message, last_from) <- thread_context ref ;;
  let thread_id := threadId msg in
  let payload := msg_payload msg in
  let headers := get_headers payload in
  if negb skip_filters && str_in email_address last_from then
    Ok (Some (Responded (ref_id ref) thread_id))
  else
    from_header <- header_value "From" headers ;;
    let is_from_user := str_in email_address from_header in
    let is_latest_in_thread := String.eqb (ref_id ref) (id last_message) in
    let should_process :=
      skip_filters || (negb is_from_user && is_latest_in_thread) in
    if negb should_process then Ok None
    else
      r <- (if skip_filters
            then build_record (id last_message) (threadId last_message)
                   (msg_payload last_message)
            else build_record (ref_id ref) (ref_threadId ref) payload) ;;
      Ok (Some (Email r)).

(** [logger.warning(f"Failed to process message {message['id']}: {str(e)}")] *)
Definition failure_line (ref : message_ref) (e : exn) : event :=
  Warning ("Failed to process message " ++ ref_id ref ++ ": " ++ str_exn e).

(** One iteration of the [for] loop, with its [except Exception]. *)
Definition entry_events (email_address : string) (skip_filters : bool)
    (ref : message_ref) : list event :=
  match process_entry email_address skip_filters ref with
  | Ok (Some y) => [Yield y]
  | Ok None => []
  | Raise e => [failure_line ref e]
  end.

(** Lines 199-285: the [for] loop over the listed messages. *)
Fixpoint process_messages (email_address : string) (skip_filters : bool)
    (refs : list message_ref) : list event :=
  match refs with
  | [] => []
  | ref :: rest =>
      (entry_events email_address skip_filters ref
         ++ process_messages email_address skip_filters rest)%list
  end.

(** Lines 175-192: the pagination loop.  [None] when [fuel] requests
    were not enough to reach a page without [nextPageToken]. *)
Fixpoint list_messages (fuel : nat) (query : string)
    (next_page_token : option string) (acc : list message_ref)
    : option (result (list message_ref)) :=
  match fuel with
  | O => None
  | S fuel' =>
      match messages_list svc query next_page_token with
      | Raise e => Some (Raise e)
      | Ok results =>
          let acc :=
            match resp_messages results with
            | Some new_messages => (acc ++ new_messages)%list
            | None => acc
            end in
          match nextPageToken results with
          | Some t =>
              if truthy t then list_messages fuel' query (Some t) acc
              else Some (Ok acc)
          | None => Some (Ok acc)
          end
      end
  end.

(** The search query; [after] is the decimal text of
    [int((datetime.now() - timedelta(minutes=minutes_since)).timestamp())]. *)
Definition search_query (email_address after : string) (include_read : bool)
    : string :=
  let query :=
    "(to:" ++ email_address ++ " OR from:" ++ email_address ++ ") after:" ++ after in
  if negb include_read then query ++ " is:unread" else query.

(** The whole generator: credentials, listing, then the loop.  Nothing is
    yielded before the listing is complete, so the run either raises
    first or produces the loop's events. *)
Definition fetch_group_emails (fuel : nat) (email_address after : string)
    (gmail_token : Credentials.token_arg) (env_token : option string)
    (file : Credentials.token_file) (include_read skip_filters : bool)
    : option (result (list event)) :=
  match Credentials.get_credentials json_loads gmail_token env_token file with
  | Raise e => Some (Raise e)
  | Ok _ =>
      match list_messages fuel (search_query email_address after include_read)
              None [] with
      | None => None
      | Some (Raise e) => Some (Raise e)
      | Some (Ok refs) => Some (Ok (process_messages email_address skip_filters refs))
      end
  end.
End WithLibraries.

End Fetch.

(** ** [gmail_tools.py]: [send_email] *)
Module Send.
Import Py Gmail.

(** Lines 323-325: the subject of the reply. *)
Definition reply_subject (subject : string) : string :=
  if negb (startswith subject "Re:") then "Re: " ++ subject else subject.

(** Lines 318-329: what the [try] block extracts from the original
    message. *)
Definition reply_context (svc : service) (email_id : string)
    : result (string * string * string) :=
  message <- messages_get svc email_id ;;
  headers <- index_headers (msg_payload message) ;;
  subject <- header_value "Subject" headers ;;
  let subject := reply_subject subject in
  original_from <- header_value "From" headers ;;
  let thread_id := threadId message in
  Ok (subject, original_from, thread_id).

(** What a call does: the bodies handed to [messages.send], in order, and
    the value returned or the exception raised. *)
Record outcome : Type := Outcome {
  submitted : list send_body;
  returned : result bool
}.

Section WithJson.
Variable json_loads : string -> option Credentials.json.
(** The service that [build] returns for the loaded credentials. *)
Variable svc : service.

Definition send_email (email_id response_text email_address : string)
    (addn_recipients : option (list string))
    (gmail_token : Credentials.token_arg) (env_token : option string)
    (file : Credentials.token_file) : outcome :=
  match Credentials.get_credentials json_loads gmail_token env_token file with
  | Raise e => Outcome [] (Raise e)
  | Ok _ =>
      match reply_context svc email_id with
      | Raise e =>
          Outcome []
            (Raise (ValueError ("Could not retrieve original message "
                                  ++ email_id ++ ": " ++ str_exn e)))
      | Ok (subject, original_from, thread_id) =>
          let cc :=
            match addn_recipients with
            | Some (r :: rs) => Some (join ", " (r :: rs))
            | Some [] => None
            | None => None
            end in
          let msg := MimeText original_from email_address subject cc response_text in
          let body := SendBody msg thread_id in
          match messages_send svc body with
          | Raise e => Outcome [body] (Raise e)
          | Ok _ => Outcome [body] (Ok true)
          end
      end
  end.
End WithJson.

End Send.

(** ** [datetime.datetime], as far as the calendar tool uses it *)
Module Datetime.
Import Py.
Local Open Scope Z_scope.

(** The fields of a [datetime]; [tzinfo] is the UTC offset in seconds of
    an aware value and [None] for a naive one. *)
Record datetime : Type := Datetime {
  year : Z; month : Z; day : Z;
  hour : Z; minute : Z; second : Z; microsecond : Z;
  tzinfo : option Z
}.

Definition is_leap (y : Z) : bool :=
  (y mod 4 =? 0) && (negb (y mod 100 =? 0) || (y mod 400 =? 0)).

Definition days_in_month (y m : Z) : Z :=
  if m =? 2 then (if is_leap y then 29 else 28)
  else if (m =? 4) || (m =? 6) || (m =? 9) || (m =? 11) then 30
  else 31.

(** [datetime(year, month, day, hour, minute)]: a naive value;
    [ValueError] for a date that does not exist. *)
Definition make_datetime (y m d hh mm : Z) : result datetime :=
  if negb ((1 <=? y) && (y <=? 9999)) then
    Raise (ValueError "year is out of range")
  else if negb ((1 <=? m) && (m <=? 12)) then
    Raise (ValueError "month must be in 1..12")
  else if negb ((1 <=? d) && (d <=? days_in_month y m)) then
    Raise (ValueError "day is out of range for month")
  else Ok (Datetime y m d hh mm 0 0 None).

(** The proleptic Gregorian ordinal of a date ([date.toordinal]). *)
Definition days_before_year (y : Z) : Z :=
  let p := y - 1 in p * 365 + p / 4 - p / 100 + p / 400.

Definition days_before_month (y m : Z) : Z :=
  fold_right Z.add 0
    (map (days_in_month y) (map Z.of_nat (seq 1 (Z.to_nat (m - 1))))).

Definition toordinal (a : datetime) : Z :=
  days_before_year (year a) + days_before_month (year a) (month a) + day a.

(** Microseconds since the ordinal origin, of the wall clock shifted by
    [offset] seconds. *)
Definition instant (a : datetime) (offset : Z) : Z :=
  (((toordinal a * 24 + hour a) * 60 + minute a) * 60 + second a - offset)
    * 1000000 + microsecond a.

Definition fields (a : datetime) : list Z :=
  [year a; month a; day a; hour a; minute a; second a; microsecond a].

Fixpoint tuple_lt (x y : list Z) : bool :=
  match x, y with
  | [], [] => false
  | [], _ :: _ => true
  | _ :: _, [] => false
  | a :: x', b :: y' => (a <? b) || ((a =? b) && tuple_lt x' y')
  end.

(** [a < b]: field by field when both are naive or carry the same offset,
    by instant for two different offsets, [TypeError] for a naive value
    against an aware one. *)
Definition lt (a b : datetime) : result bool :=
  match tzinfo a, tzinfo b with
  | None, None => Ok (tuple_lt (fields a) (fields b))
  | Some oa, Some ob =>
      if oa =? ob then Ok (tuple_lt (fields a) (fields b))
      else Ok (instant a oa <? instant b ob)
  | _, _ =>
      Raise (TypeError "can't compare offset-naive and offset-aware datetimes")
  end.

(** [max(a, b)]: [b] when [b > a], else [a]. *)
Definition max (a b : datetime) : result datetime :=
  gt <- lt a b ;; Ok (if gt then b else a).

Definition digit (n : Z) : string :=
  String (ascii_of_nat (48 + Z.to_nat n)) EmptyString.

Definition two_digits (n : Z) : string :=
  (digit (n / 10) ++ digit (n mod 10))%string.

(** [a.strftime("%I:%M %p")] *)
Definition strftime_IMp (a : datetime) : string :=
  let h12 := if hour a mod 12 =? 0 then 12 else hour a mod 12 in
  let suffix := if hour a <? 12 then "AM"%string else "PM"%string in
  (two_digits h12 ++ ":" ++ two_digits (minute a) ++ " " ++ suffix)%string.

End Datetime.

(** ** [gmail_tools.py]: [get_calendar_events] *)
Module Calendar.
Import Py.
Import Datetime.

(** The [start] / [end] object of an event: a [dateTime] (RFC 3339 text,
    which contains a "T"; held as the value [datetime.fromisoformat]
    gives for it after "Z" is replaced by "+00:00") or a [date]. *)
Inductive event_time : Type :=
| DateTime (dt : datetime)
| Date (y m d : Z).

Record cal_event : Type := CalEvent {
  summary : option string;
  ev_start : event_time;
  ev_end : event_time
}.

(** [build("calendar", "v3", ...).events().list(timeMin, timeMax)]: the
    [items] of the answer, when the key is present. *)
Definition calendar_service : Type :=
  string -> string -> result (option (list cal_event)).

(** An entry of [busy_slots]: a pair of datetimes, or the pair
    [("all-day", "all-day")]. *)
Inductive busy_slot : Type :=
| Busy (start_dt end_dt : datetime)
| AllDay.

Definition is_all_day (s : busy_slot) : bool :=
  match s with AllDay => true | Busy _ _ => false end.

(** [s.split("-")] *)
Fixpoint split_dash (s : string) : list string :=
  match s with
  | EmptyString => [EmptyString]
  | String c s' =>
      if Ascii.eqb c "-"%char then EmptyString :: split_dash s'
      else
        match split_dash s' with
        | p :: ps => String c p :: ps
        | [] => [String c EmptyString]
        end
  end.

(** [day, month, year = date_str.split("-")] *)
Definition unpack_date (date_str : string) : result (string * string * string) :=
  match split_dash date_str with
  | [day; month; year] => Ok (day, month, year)
  | _ :: _ :: _ :: _ :: _ => Raise (ValueError "too many values to unpack (expected 3)")
  | [_; _] => Raise (ValueError "not enough values to unpack (expected 3, got 2)")
  | [_] => Raise (ValueError "not enough values to unpack (expected 3, got 1)")
  | [] => Raise (ValueError "not enough values to unpack (expected 3, got 0)")
  end.

(** [datetime.fromisoformat] of the text of an [end] object. *)
Definition as_datetime (t : event_time) : datetime :=
  match t with
  | DateTime dt => dt
  | Date y m d => Datetime y m d 0 0 0 0 None
  end.

(** [event["summary"]] *)
Definition index_summary (ev : cal_event) : result string :=
  match summary ev with
  | Some s => Ok s
  | None => Raise (KeyError "'summary'")
  end.

(** Lines 402-415: the line printed for one event and its busy slot. *)
Definition describe_event (ev : cal_event) : result (string * busy_slot) :=
  match ev_start ev with
  | DateTime start_dt =>
      let end_dt := as_datetime (ev_end ev) in
      let start_display := strftime_IMp start_dt in
      let end_display := strftime_IMp end_dt in
      title <- index_summary ev ;;
      Ok ("  - " ++ start_display ++ " - " ++ end_display ++ ": " ++ title ++ nl,
          Busy start_dt end_dt)
  | Date _ _ _ =>
      title <- index_summary ev ;;
      Ok ("  - All day: " ++ title ++ nl, AllDay)
  end.

Fixpoint describe_events (events : list cal_event)
    : result (string * list busy_slot) :=
  match events with
  | [] => Ok ("", [])
  | ev :: rest =>
      '(line, slot) <- describe_event ev ;;
      '(lines, slots) <- describe_events rest ;;
      Ok (line ++ lines, slot :: slots)
  end.

(** [busy_slots.sort(key=lambda x: x[0])] on timed slots: stable, by
    [<] on the start; a comparison that raises ends the sort. *)
Fixpoint insert_slot (x : datetime * datetime) (l : list (datetime * datetime))
    : result (list (datetime * datetime)) :=
  match l with
  | [] => Ok [x]
  | y :: l' =>
      before <- lt (fst x) (fst y) ;;
      if before then Ok (x :: y :: l')
      else (rest <- insert_slot x l' ;; Ok (y :: rest))
  end.

Fixpoint sort_slots_from (sorted : list (datetime * datetime))
    (l : list (datetime * datetime)) : result (list (datetime * datetime)) :=
  match l with
  | [] => Ok sorted
  | x :: l' => sorted' <- insert_slot x sorted ;; sort_slots_from sorted' l'
  end.

Definition sort_slots (l : list (datetime * datetime))
    : result (list (datetime * datetime)) :=
  sort_slots_from [] l.

(** Lines 431-434: the loop over the sorted busy slots; returns the gaps
    found, in the order they were appended, and the final [current]. *)
Fixpoint walk_busy (current : datetime) (busy : list (datetime * datetime))
    : result (list (datetime * datetime) * datetime) :=
  match busy with
  | [] => Ok ([], current)
  | (start, end_) :: rest =>
      free <- lt current start ;;
      current' <- max current end_ ;;
      '(slots, final) <- walk_busy current' rest ;;
      Ok ((if free then (current, start) :: slots else slots), final)
  end.

(** Lines 428-437: [available_slots]. *)
Definition available_slots (work_start work_end : datetime)
    (busy : list (datetime * datetime)) : result (list (datetime * datetime)) :=
  '(slots, current) <- walk_busy work_start busy ;;
  tail_free <- lt current work_end ;;
  Ok (if tail_free then (slots ++ [(current, work_end)])%list else slots).

(** [a <= b] on naive values, that is, [b < a] is false. *)
Definition naive_le (a b : datetime) : Prop :=
  tuple_lt (fields b) (fields a) = false.

Definition naive_lt (a b : datetime) : Prop :=
  tuple_lt (fields a) (fields b) = true.

Definition naive (a : datetime) : Prop := tzinfo a = None.

(** A list of free slots is a chain from [lo]: every slot is non-empty
    and starts no earlier than [lo], and the next slot starts no earlier
    than the end of the previous one.  So the slots are in strictly
    ascending order and do not overlap. *)
Fixpoint chain_from (lo : datetime) (slots : list (datetime * datetime)) : Prop :=
  match slots with
  | [] => True
  | (a, b) :: rest => naive_le lo a /\ naive_lt a b /\ chain_from b rest
  end.

(** A busy interval of naive datetimes that does not end before it
    starts. *)
Definition well_formed (p : datetime * datetime) : Prop :=
  naive (fst p) /\ naive (snd p) /\ naive_le (fst p) (snd p).

(** The text for a day without events (lines 393-397). *)
Definition no_events_report (date_str : string) : string :=
  "Events for " ++ date_str ++ ":" ++ nl ++
  "  No events found" ++ nl ++
  "  Available all day" ++ nl ++ nl.

Definition format_slot (s : datetime * datetime) : string :=
  strftime_IMp (fst s) ++ " - " ++ strftime_IMp (snd s).

(** Lines 440-448 *)
Definition format_availability (slots : list (datetime * datetime)) : string :=
  match slots with
  | [] => "  Available: None during working hours" ++ nl ++ nl
  | _ :: _ => "  Available: " ++ join ", " (map format_slot slots) ++ nl ++ nl
  end.

Definition timed_slots (busy : list busy_slot) : list (datetime * datetime) :=
  flat_map (fun s => match s with Busy a b => [(a, b)] | AllDay => [] end) busy.

Section WithLibraries.
(** [int(text)]; [None] stands for [ValueError]. *)
Variable int_of_str : string -> option Z.
Variable json_loads : string -> option Credentials.json.
Variable events_list : calendar_service.

Definition to_int (text : string) : result Z :=
  match int_of_str text with
  | Some n => Ok n
  | None => Raise (ValueError "invalid literal for int() with base 10")
  end.

(** [datetime(int(year), int(month), int(day), hh, 0)] *)
Definition working_hour (year month day : string) (hh : Z) : result datetime :=
  y <- to_int year ;;
  m <- to_int month ;;
  d <- to_int day ;;
  make_datetime y m d hh 0.

(** Lines 417-448: the availability line for a day that has events,
    with the slots computed when no event is an all-day one. *)
Definition day_slots (year month day : string) (busy : list busy_slot)
    : result (list (datetime * datetime)) :=
  sorted <- sort_slots (timed_slots busy) ;;
  work_start <- working_hour year month day 9 ;;
  work_end <- working_hour year month day 17 ;;
  available_slots work_start work_end sorted.

Definition availability (year month day : string) (busy : list busy_slot)
    : result string :=
  if existsb is_all_day busy then
    Ok ("  Available: None (all-day events)" ++ nl ++ nl)
  else
    slots <- day_slots year month day busy ;;
    Ok (format_availability slots).

(** The body of the loop over [dates]: the text appended to [result]. *)
Definition date_section (date_str : string) : result string :=
  '(day, month, year) <- unpack_date date_str ;;
  let start_time := year ++ "-" ++ month ++ "-" ++ day ++ "T00:00:00Z" in
  let end_time := year ++ "-" ++ month ++ "-" ++ day ++ "T23:59:59Z" in
  events_result <- events_list start_time end_time ;;
  let events := match events_result with Some items => items | None => [] end in
  let head := "Events for " ++ date_str ++ ":" ++ nl in
  match events with
  | [] =>
      Ok (head ++ "  No events found" ++ nl ++ "  Available all day" ++ nl ++ nl)
  | _ :: _ =>
      '(lines, busy_slots) <- describe_events events ;;
      avail <- availability year month day busy_slots ;;
      Ok (head ++ lines ++ avail)
  end.

Fixpoint date_sections (dates : list string) : result string :=
  match dates with
  | [] => Ok ""
  | date_str :: rest =>
      section <- date_section date_str ;;
      sections <- date_sections rest ;;
      Ok (section ++ sections)
  end.

Definition get_calendar_events (dates : list string)
    (gmail_token : Credentials.token_arg) (env_token : option string)
    (file : Credentials.token_file) : result string :=
  _ <- Credentials.get_credentials json_loads gmail_token env_token file ;;
  sections <- date_sections dates ;;
  Ok ("Calendar events:" ++ nl ++ nl ++ sections).
End WithLibraries.

End Calendar.

(** ** [gmail_tools.py]: [send_calendar_invite], [mark_as_read] and the
    four LangChain tools *)
Module Tools.
Import Py Gmail.

(** [str(n)] for a non-negative [int]. *)
Definition str_of_nat (n : nat) : string :=
  NilEmpty.string_of_uint (Nat.to_uint n).

(** The [start] / [end] object of the event to insert. *)
Record time_point : Type := TimePoint { dateTime : string; timeZone : string }.

(** The event dict of lines 487-495; [inv_attendees] holds the address of
    each [{"email": email}] entry. *)
Record invite_event : Type := InviteEvent {
  inv_summary : string;
  inv_start : time_point;
  inv_end : time_point;
  inv_attendees : list string;
  inv_organizer : string;
  inv_organizer_self : bool;
  inv_reminders_default : bool;
  inv_sendUpdates : string
}.

(** [events().insert(calendarId="primary", body=event).execute()]; the
    value is the created event's [htmlLink], when it has one. *)
Definition insert_service : Type := invite_event -> result (option string).

(** [messages().modify(userId="me", id=..., body={"removeLabelIds": ...})] *)
Definition modify_service : Type := string -> list string -> result unit.

Record invite_outcome : Type := InviteOutcome {
  inserted : list invite_event;
  invite_returned : result bool
}.

Record modify_outcome : Type := ModifyOutcome {
  modified : list (string * list string);
  modify_returned : result bool
}.

(** Lines 568-583: the summary of a non-empty list of yielded dicts;
    [i] is the number of the first one. *)
Fixpoint render_emails (i : nat) (emails : list Fetch.yielded) : string :=
  match emails with
  | [] => ""
  | Fetch.Responded _ thread_id :: rest =>
      str_of_nat i ++ ". Already responded (Thread: " ++ thread_id ++ ")"
        ++ nl ++ nl ++ render_emails (S i) rest
  | Fetch.Email r :: rest =>
      str_of_nat i ++ ". From: " ++ Fetch.from_email r ++ nl ++
      "   To: " ++ Fetch.to_email r ++ nl ++
      "   Subject: " ++ Fetch.subject r ++ nl ++
      "   Time: " ++ Fetch.send_time r ++ nl ++
      "   ID: " ++ Fetch.rec_id r ++ nl ++
      "   Thread: " ++ Fetch.rec_thread_id r ++ nl ++
      "   Content: " ++ substring 0 200 (Fetch.page_content r) ++ "..."
        ++ nl ++ nl ++ render_emails (S i) rest
  end.

(** [list(generator)]: the yielded dicts, without the log lines. *)
Fixpoint yields (events : list Fetch.event) : list Fetch.yielded :=
  match events with
  | [] => []
  | Fetch.Yield y :: rest => y :: yields rest
  | Fetch.Warning _ :: rest => yields rest
  end.

Section WithServices.
Variable b64decode_utf8 : string -> result string.
Variable int_of_str : string -> option Z.
Variable parse_time_iso : string -> result string.
Variable json_loads : string -> option Credentials.json.
Variable svc : service.
Variable events_list : Calendar.calendar_service.
Variable events_insert : insert_service.
Variable messages_modify : modify_service.
(** The two credential sources a tool can use: it passes no token. *)
Variable env_token : option string.
Variable file : Credentials.token_file.

Definition send_calendar_invite (attendees : list string)
    (title start_time end_time organizer_email timezone : string)
    (gmail_token : Credentials.token_arg) : invite_outcome :=
  match Credentials.get_credentials json_loads gmail_token env_token file with
  | Raise e => InviteOutcome [] (Raise e)
  | Ok _ =>
      let event :=
        InviteEvent title (TimePoint start_time timezone)
          (TimePoint end_time timezone) attendees
          organizer_email true true "all" in
      match events_insert event with
      | Raise e => InviteOutcome [event] (Raise e)
      | Ok _ => InviteOutcome [event] (Ok true)
      end
  end.

Definition mark_as_read (message_id : string)
    (gmail_token : Credentials.token_arg) : modify_outcome :=
  match Credentials.get_credentials json_loads gmail_token env_token file with
  | Raise e => ModifyOutcome [] (Raise e)
  | Ok _ =>
      match messages_modify message_id ["UNREAD"] with
      | Raise e => ModifyOutcome [(message_id, ["UNREAD"])] (Raise e)
      | Ok _ => ModifyOutcome [(message_id, ["UNREAD"])] (Ok true)
      end
  end.

(** [fetch_emails_tool]; [after] is the cut-off computed from
    [minutes_since], [None] when the listing does not end within [fuel]
    requests. *)
Definition fetch_emails_tool (fuel : nat) (email_address after : string)
    (include_read : bool) : option string :=
  match Fetch.fetch_group_emails b64decode_utf8 int_of_str parse_time_iso
          json_loads svc fuel email_address after Credentials.ArgNone
          env_token file include_read false with
  | None => None
  | Some (Raise e) => Some ("Failed to fetch emails: " ++ str_exn e)
  | Some (Ok events) =>
      let emails := yields events in
      match emails with
      | [] => Some "No new emails found."
      | _ :: _ =>
          Some ("Found " ++ str_of_nat (List.length emails) ++ " emails:"
                  ++ nl ++ nl ++ render_emails 1 emails)
      end
  end.

Definition send_email_tool (email_id response_text email_address : string)
    (additional_recipients : option (list string)) : string :=
  match Send.returned
          (Send.send_email json_loads svc email_id response_text email_address
             additional_recipients Credentials.ArgNone env_token file) with
  | Ok success =>
      if success
      then "Email reply sent successfully to message ID: " ++ email_id
      else "Failed to send email"
  | Raise e => "Failed to send email: " ++ str_exn e
  end.

Definition check_calendar_tool (dates : list string) : string :=
  match Calendar.get_calendar_events int_of_str json_loads events_list dates
          Credentials.ArgNone env_token file with
  | Ok report => report
  | Raise e => "Failed to check calendar: " ++ str_exn e
  end.

Definition schedule_meeting_tool (attendees : list string)
    (title start_time end_time organizer_email timezone : string) : string :=
  match invite_returned
          (send_calendar_invite attendees title start_time end_time
             organizer_email timezone Credentials.ArgNone) with
  | Ok success =>
      if success
      then "Meeting '" ++ title ++ "' scheduled successfully from "
             ++ start_time ++ " to " ++ end_time
      else "Failed to schedule meeting"
  | Raise e => "Failed to schedule meeting: " ++ str_exn e
  end.
End WithServices.

End Tools.

(** ** [src/utils.py]: [format_for_display], [parse_gmail] *)
Module Utils.
Import Py Credentials.

(** [d[key]] on a dict held as its list of items. *)
Fixpoint dict_index (d : list (string * json)) (key : string) : result json :=
  match d with
  | [] => Raise (KeyError ("'" ++ key ++ "'"))
  | (k, v) :: d' => if String.eqb k key then Ok v else dict_index d' key
  end.

(** [parse_gmail]: the fields in the order from, to, subject, body, id. *)
Definition parse_gmail (email_input : list (string * json))
    : result (json * json * json * json * json) :=
  from_ <- dict_index email_input "from" ;;
  to <- dict_index email_input "to" ;;
  subject <- dict_index email_input "subject" ;;
  body <- dict_index email_input "body" ;;
  id_ <- dict_index email_input "id" ;;
  Ok (from_, to, subject, body, id_).

Definition str_of_Z (n : Z) : string :=
  if (n <? 0)%Z then "-" ++ Tools.str_of_nat (Z.to_nat (- n))
  else Tools.str_of_nat (Z.to_nat n).

(** The characters of a string, as one-character strings. *)
Fixpoint chars (s : string) : list string :=
  match s with
  | EmptyString => []
  | String c s' => String c EmptyString :: chars s'
  end.

(** The items of a list for [str.join]: each must be a [str]; [i] is the
    index of the first item. *)
Fixpoint join_items (i : nat) (l : list json) : result (list string) :=
  match l with
  | [] => Ok []
  | JStr s :: l' => rest <- join_items (S i) l' ;; Ok (s :: rest)
  | v :: _ =>
      Raise (TypeError ("sequence item " ++ Tools.str_of_nat i
                          ++ ": expected str instance, " ++ type_name v ++ " found"))
  end.

(** [', '.join(v)]: a list of strings, the characters of a string or the
    keys of a dict; anything else is not iterable. *)
Definition join_comma (v : json) : result string :=
  match v with
  | JList l => items <- join_items 0 l ;; Ok (join ", " items)
  | JStr s => Ok (join ", " (chars s))
  | JDict d => Ok (join ", " (map fst d))
  | _ => Raise (TypeError "can only join an iterable")
  end.

Record tool_call : Type := ToolCall { name : string; args : json }.

Section WithFormatting.
(** [repr] of a list or dict inside an f-string, and
    [json.dumps(v, indent=2)]. *)
Variable repr : json -> string.
Variable dumps_indent2 : json -> string.

(** [f"{v}"] *)
Definition fmt (v : json) : string :=
  match v with
  | JNull => "None"
  | JBool b => if b then "True" else "False"
  | JNum n => str_of_Z n
  | JStr s => s
  | JList _ => repr v
  | JDict _ => repr v
  end.

(** [f"{tool_call['args'].get(key)}"] *)
Definition arg (tc : tool_call) (key : string) : result string :=
  v <- get (args tc) key JNull ;; Ok (fmt v).

Definition format_for_display (tc : tool_call) : result string :=
  if String.eqb (name tc) "write_email" then
    to <- arg tc "to" ;;
    subject <- arg tc "subject" ;;
    content <- arg tc "content" ;;
    Ok ("# Email Draft" ++ nl ++
        "        **To**: " ++ to ++ nl ++
        "        **Subject**: " ++ subject ++ nl ++
        nl ++
        "        " ++ content ++ nl ++
        "        ")
  else if String.eqb (name tc) "schedule_meeting" then
    subject <- arg tc "subject" ;;
    attendees <- get (args tc) "attendees" JNull ;;
    joined <- join_comma attendees ;;
    duration <- arg tc "duration_minutes" ;;
    day <- arg tc "preferred_day" ;;
    Ok ("# Calendar Invite" ++ nl ++
        "        **Meeting**: " ++ subject ++ nl ++
        "        **Attendees**: " ++ joined ++ nl ++
        "        **Duration**: " ++ duration ++ " minutes" ++ nl ++
        "        **Day**: " ++ day ++ nl ++
        "        ")
  else if String.eqb (name tc) "Question" then
    content <- arg tc "content" ;;
    Ok ("# Question for User" ++ nl ++
        "        " ++ content ++ nl ++
        "        ")
  else
    let display := "# Tool Call: " ++ name tc ++ nl ++ "        Arguments:" in
    match args tc with
    | JDict _ => Ok (display ++ nl ++ dumps_indent2 (args tc) ++ nl)
    | _ => Ok (display ++ nl ++ fmt (args tc) ++ nl)
    end.
End WithFormatting.

End Utils.

(** ** [src/tools/base.py]: [get_tools], [get_tools_by_name] *)
Module Base.
Import Py.

(** A [BaseTool] object: one of the four tool objects of
    [gmail_tools.py] (the [name] of a tool made by [@tool] is the name of
    its function), or any other tool, given by its [name] and an identity
    that tells apart two tools of the same name. *)
Inductive base_tool : Type :=
| FetchEmailsTool
| SendEmailTool
| CheckCalendarTool
| ScheduleMeetingTool
| OtherTool (name : string) (ident : nat).

(** [tool.name] *)
Definition tool_name (t : base_tool) : string :=
  match t with
  | FetchEmailsTool => "fetch_emails_tool"
  | SendEmailTool => "send_email_tool"
  | CheckCalendarTool => "check_calendar_tool"
  | ScheduleMeetingTool => "schedule_meeting_tool"
  | OtherTool name _ => name
  end.

(** A dict with [str] keys, as its items in insertion order. *)
Definition dict (V : Type) : Type := list (string * V).

Fixpoint lookup {V : Type} (d : dict V) (key : string) : option V :=
  match d with
  | [] => None
  | (k, v) :: d' => if String.eqb k key then Some v else lookup d' key
  end.

(** [d[key] = v]: an existing key keeps its place. *)
Fixpoint set_item {V : Type} (d : dict V) (key : string) (v : V) : dict V :=
  match d with
  | [] => [(key, v)]
  | (k, w) :: d' =>
      if String.eqb k key then (k, v) :: d' else (k, w) :: set_item d' key v
  end.

(** The dict after [all_tools.update({...})]. *)
Definition gmail_tools : dict base_tool :=
  [("fetch_emails_tool", FetchEmailsTool);
   ("send_email_tool", SendEmailTool);
   ("check_calendar_tool", CheckCalendarTool);
   ("schedule_meeting_tool", ScheduleMeetingTool)].

(** [import_ok] tells whether [from .gmailapi.gmail_tools import ...]
    succeeds; an [ImportError] leaves [all_tools] empty. *)
Definition get_tools (import_ok : bool) (tool_names : option (list string))
    (include_gmail : bool) : list base_tool :=
  let all_tools : dict base_tool :=
    if include_gmail then (if import_ok then gmail_tools else []) else [] in
  match tool_names with
  | None => map snd all_tools
  | Some names =>
      flat_map (fun name =>
                  match lookup all_tools name with
                  | Some t => [t]
                  | None => []
                  end) names
  end.

(** [{tool.name: tool for tool in tools}], with [tools=None] replaced by
    [get_tools()]. *)
Definition get_tools_by_name (import_ok : bool)
    (tools : option (list base_tool)) : dict base_tool :=
  let tools :=
    match tools with
    | None => get_tools import_ok None false
    | Some ts => ts
    end in
  fold_left (fun d t => set_item d (tool_name t) t) tools [].

End Base.

(** ** Notions used to state further properties *)
Module Stating.
Import Py.

(** The results of [f] on the items of a list, left to right; the first
    exception ends the traversal. *)
Fixpoint collect {A B : Type} (f : A -> result B) (l : list A) : result (list B) :=
  match l with
  | [] => Ok []
  | a :: l' => b <- f a ;; rest <- collect f l' ;; Ok (b :: rest)
  end.

(** Busy intervals in non-decreasing order of their starts. *)
Definition starts_sorted (l : list (Datetime.datetime * Datetime.datetime)) : Prop :=
  StronglySorted (fun a b => Calendar.naive_le (fst a) (fst b)) l.

(** Two intervals that do not overlap: one ends no later than the other
    starts. *)
Definition apart (slot busy : Datetime.datetime * Datetime.datetime) : Prop :=
  Calendar.naive_le (snd slot) (fst busy) \/ Calendar.naive_le (snd busy) (fst slot).

(** The busy slot an event stands for. *)
Definition slot_of (ev : Calendar.cal_event) : Calendar.busy_slot :=
  match Calendar.ev_start ev with
  | Calendar.DateTime start_dt =>
      Calendar.Busy start_dt (Calendar.as_datetime (Calendar.ev_end ev))
  | Calendar.Date _ _ _ => Calendar.AllDay
  end.

Definition is_all_day_event (ev : Calendar.cal_event) : bool :=
  match Calendar.ev_start ev with
  | Calendar.DateTime _ => false
  | Calendar.Date _ _ _ => true
  end.

(** A timed event one of whose two times carries a UTC offset. *)
Definition has_offset (ev : Calendar.cal_event) : Prop :=
  match Calendar.ev_start ev with
  | Calendar.DateTime start_dt =>
      Datetime.tzinfo start_dt <> None \/
      Datetime.tzinfo (Calendar.as_datetime (Calendar.ev_end ev)) <> None
  | Calendar.Date _ _ _ => False
  end.

(** A string without the character "-". *)
Fixpoint dash_free (s : string) : bool :=
  match s with
  | EmptyString => true
  | String c s' => negb (Ascii.eqb c "-"%char) && dash_free s'
  end.

(** The keys [parse_gmail] reads, in the order it reads them. *)
Definition gmail_keys : list string := ["from"; "to"; "subject"; "body"; "id"].

(** The names [get_tools] knows. *)
Definition is_gmail_tool_name (n : string) : bool :=
  existsb (String.eqb n) (map fst Base.gmail_tools).

End Stating.

(** ** A small mailbox and calendar for the worked examples *)
Module Examples.
Import Py Gmail.

(** Stand-ins for the library calls, defined on the texts the examples
    use.  The decoder knows the base64url text of five words and raises
    like [binascii.Error] (a [ValueError]) otherwise; the date parser
    returns its input. *)
Definition example_decode (data : string) : result string :=
  if String.eqb data "aGVsbG8=" then Ok "hello"
  else if String.eqb data "aGk=" then Ok "hi"
  else if String.eqb data "ZGlnZXN0" then Ok "digest"
  else if String.eqb data "cGxhaW4=" then Ok "plain"
  else if String.eqb data "aHRtbA==" then Ok "html"
  else Raise (ValueError "Incorrect padding").
Definition example_parse_time (text : string) : result string := Ok text.

Fixpoint digits_value (acc : Z) (s : string) : option Z :=
  match s with
  | EmptyString => Some acc
  | String c s' =>
      let n := nat_of_ascii c in
      if Nat.leb 48 n && Nat.leb n 57
      then digits_value (acc * 10 + Z.of_nat (n - 48)) s'
      else None
  end.

(** [int] on a non-empty run of decimal digits. *)
Definition example_int (s : string) : option Z :=
  match s with
  | EmptyString => None
  | _ => digits_value 0 s
  end.

Definition mail (from_ subject : string) : payload :=
  Payload (Some [Header "From" from_; Header "To" "me@x.org";
                 Header "Subject" subject; Header "Date" "Mon, 1 Jan 2024"])
          (Some "aGVsbG8=") [].

Definition m1 : message := Message "m1" "t1" (Some "100") (mail "alice@x.org" "Hello").
Definition m2 : message := Message "m2" "t2" (Some "200") (mail "bob@x.org" "Plan").
Definition m3 : message := Message "m3" "t2" (Some "300") (mail "Me <me@x.org>" "Re: Plan").
Definition m4 : message := Message "m4" "t4" (Some "400") (mail "carol@x.org" "Old").
Definition m5 : message := Message "m5" "t4" (Some "500") (mail "carol@x.org" "New").

Definition example_get (msg_id : string) : result message :=
  if String.eqb msg_id "m1" then Ok m1
  else if String.eqb msg_id "m2" then Ok m2
  else if String.eqb msg_id "m3" then Ok m3
  else if String.eqb msg_id "m4" then Ok m4
  else if String.eqb msg_id "m5" then Ok m5
  else Raise (HttpError "404 Not Found").

(** The provider lists a thread newest first. *)
Definition example_thread (thread_id : string) : result thread :=
  if String.eqb thread_id "t1" then Ok (Thread [m1])
  else if String.eqb thread_id "t2" then Ok (Thread [m3; m2])
  else if String.eqb thread_id "t4" then Ok (Thread [m5; m4])
  else Raise (HttpError "404 Not Found").

Definition example_list (query : string) (page : option string)
    : result list_response :=
  match page with
  | None =>
      Ok (ListResponse (Some [MessageRef "gone" "t9"; MessageRef "m1" "t1"])
            (Some "p2"))
  | Some _ =>
      Ok (ListResponse (Some [MessageRef "m2" "t2"; MessageRef "m4" "t4"]) None)
  end.

(** The record [fetch_group_emails] yields for m1. *)
Definition m1_record : Fetch.email_record :=
  Fetch.EmailRecord "alice@x.org" "me@x.org" "Hello" "hello" "m1" "t1"
    "Mon, 1 Jan 2024".

Definition example_service : service :=
  Service example_list example_get example_thread (fun _ => Ok "sent-1").

Definition rejecting_service : service :=
  Service example_list example_get example_thread
    (fun _ => Raise (HttpError "403 Forbidden")).

(** Calendars for 01-01-2024.  [at hh mm tz] is that day at [hh:mm]. *)
Definition at_ (hh mm : Z) (tz : option Z) : Datetime.datetime :=
  Datetime.Datetime 2024 1 1 hh mm 0 0 tz.

Definition timed (title : string) (start_ end_ : Datetime.datetime)
    : Calendar.cal_event :=
  Calendar.CalEvent (Some title) (Calendar.DateTime start_) (Calendar.DateTime end_).

Definition empty_calendar : Calendar.calendar_service :=
  fun _ _ => Ok (Some []).

(** One event after working hours, with a dateTime that has no offset. *)
Definition evening_calendar : Calendar.calendar_service :=
  fun _ _ => Ok (Some [timed "Dinner" (at_ 18 0 None) (at_ 19 0 None)]).

(** One event with a UTC dateTime, as in "2024-01-01T10:00:00Z". *)
Definition utc_calendar : Calendar.calendar_service :=
  fun _ _ => Ok (Some [timed "Standup" (at_ 10 0 (Some 0%Z)) (at_ 11 0 (Some 0%Z))]).

(** One event before working hours. *)
Definition early_calendar : Calendar.calendar_service :=
  fun _ _ => Ok (Some [timed "Run" (at_ 7 0 None) (at_ 8 0 None)]).

Definition token_P : Credentials.token_arg :=
  Credentials.ArgStr (Credentials.token_doc "P").

(** Two meetings inside working hours, listed by start time. *)
Definition busy_calendar : Calendar.calendar_service :=
  fun _ _ => Ok (Some [timed "Standup" (at_ 10 0 None) (at_ 11 0 None);
                       timed "Review" (at_ 14 0 None) (at_ 15 30 None)]).

(** The record [fetch_group_emails] yields for m5, the later of the two
    messages of thread t4. *)
Definition m5_record : Fetch.email_record :=
  Fetch.EmailRecord "carol@x.org" "me@x.org" "New" "hello" "m5" "t4"
    "Mon, 1 Jan 2024".

(** A mailbox whose listing holds both messages of thread t4. *)
Definition thread_listing_service : service :=
  Service (fun _ _ => Ok (ListResponse
                            (Some [MessageRef "m4" "t4"; MessageRef "m5" "t4"]) None))
    example_get example_thread (fun _ => Ok "sent-1").

(** Thread t7: b2 is the most recent message by [internalDate], a1 has no
    [internalDate], c3 has the greatest id. *)
Definition b2 : message := Message "b2" "t7" (Some "200") (mail "frank@x.org" "Second").
Definition a1 : message := Message "a1" "t7" None (mail "frank@x.org" "Undated").
Definition c3 : message := Message "c3" "t7" (Some "100") (mail "frank@x.org" "First").

Definition c3_record : Fetch.email_record :=
  Fetch.EmailRecord "frank@x.org" "me@x.org" "First" "hello" "c3" "t7"
    "Mon, 1 Jan 2024".

Definition undated_service : service :=
  Service (fun _ _ => Ok (ListResponse
                            (Some [MessageRef "b2" "t7"; MessageRef "c3" "t7"]) None))
    (fun msg_id =>
       if String.eqb msg_id "b2" then Ok b2
       else if String.eqb msg_id "a1" then Ok a1
       else if String.eqb msg_id "c3" then Ok c3
       else Raise (HttpError "404 Not Found"))
    (fun _ => Ok (Thread [b2; a1; c3]))
    (fun _ => Ok "sent-1").

(** A message without a Subject header, alone in its thread. *)
Definition m6 : message :=
  Message "m6" "t6" (Some "600")
    (Payload (Some [Header "From" "dave@x.org"; Header "Date" "Mon, 1 Jan 2024"])
       (Some "aGk=") []).

Definition untitled_service : service :=
  Service example_list (fun _ => Ok m6) (fun _ => Ok (Thread [m6]))
    (fun _ => Ok "sent-1").

(** A mailing-list message: From is the list, Reply-To the author. *)
Definition list_mail : payload :=
  Payload (Some [Header "From" "list@x.org"; Header "Subject" "Digest";
                 Header "Reply-To" " erin@x.org "; Header "Date" "Tue, 2 Jan 2024"])
          (Some "ZGlnZXN0") [].

(** A multipart payload with an empty part between two texts. *)
Definition leaf (data : string) : payload := Payload None (Some data) [].
Definition multipart : payload :=
  Payload None None [leaf "cGxhaW4="; Payload None None []; leaf "aHRtbA=="].

(** A mailbox whose listing works while every [messages.get] fails. *)
Definition down_service : service :=
  Service example_list (fun _ => Raise (HttpError "503 Service Unavailable"))
    example_thread (fun _ => Ok "sent-1").

Definition accepting_insert : Tools.insert_service := fun _ => Ok None.
Definition accepting_modify : Tools.modify_service := fun _ _ => Ok tt.

(** A public holiday together with a call whose times carry an offset. *)
Definition holiday_calendar : Calendar.calendar_service :=
  fun _ _ =>
    Ok (Some [Calendar.CalEvent (Some "Holiday") (Calendar.Date 2024 1 1)
                (Calendar.Date 2024 1 2);
              timed "Call" (at_ 10 0 (Some 0%Z)) (at_ 11 0 (Some 0%Z))]).

(** A meeting that was saved without a title. *)
Definition untitled_calendar : Calendar.calendar_service :=
  fun _ _ =>
    Ok (Some [Calendar.CalEvent None (Calendar.DateTime (at_ 10 0 None))
                (Calendar.DateTime (at_ 11 0 None))]).

Definition two_meetings : list Calendar.busy_slot :=
  [Calendar.Busy (at_ 14 0 None) (at_ 15 30 None);
   Calendar.Busy (at_ 10 0 None) (at_ 11 0 None)].

End Examples.

(** * Properties *)

(** *** Facts about the string primitives *)
Module PyFacts.
Import Py.

Lemma startswith_app (p t : string) : startswith (p ++ t) p = true.
Proof.
  induction p as [|a p IH]; simpl; [reflexivity|].
  now rewrite Ascii.eqb_refl, IH.
Qed.

Lemma startswith_spec (s p : string) :
  startswith s p = true <-> exists t, s = p ++ t.
Proof.
  split.
  - revert s. induction p as [|a p IH]; intros s H; simpl in *.
    + now exists s.
    + destruct s as [|b s]; [discriminate|].
      apply andb_true_iff in H as [Hab Hs].
      apply Ascii.eqb_eq in Hab. subst b.
      destruct (IH _ Hs) as [t ->]. now exists t.
  - intros [t ->]. apply startswith_app.
Qed.

Lemma append_assoc (a b c : string) : (a ++ b) ++ c = a ++ b ++ c.
Proof.
  induction a as [|x a IH]; simpl; [reflexivity|]. now rewrite IH.
Qed.

Lemma str_in_spec (needle hay : string) :
  str_in needle hay = true <-> exists a b, hay = a ++ needle ++ b.
Proof.
  split.
  - induction hay as [|c hay IH]; simpl; intros H.
    + apply orb_true_iff in H as [H|H]; [|discriminate].
      apply startswith_spec in H as [t Ht]. exists "", t. exact Ht.
    + apply orb_true_iff in H as [H|H].
      * apply startswith_spec in H as [t Ht]. exists "", t. exact Ht.
      * destruct (IH H) as (a & b & ->). now exists (String c a), b.
  - intros (a & b & ->). induction a as [|c a IH]; simpl.
    + assert (U : forall h, startswith h needle = true -> str_in needle h = true)
        by (intros [|? ?] Hh; simpl; rewrite Hh; reflexivity).
      apply U, startswith_app.
    + rewrite IH. apply orb_true_r.
Qed.

End PyFacts.


(** ** [format_gmail_markdown]: when the body is converted *)
Module FormatProofs.
Import Py Format PyFacts.

Lemma truthy_spec (s : string) : truthy s = true <-> s <> "".
Proof.
  destruct s; simpl; split; intro H; try discriminate; try reflexivity.
  now contradiction H.
Qed.

Lemma html_detected_spec (body : string) :
  html_detected (Some body) = true <-> html_marked body.
Proof.
  unfold html_detected, html_marked.
  rewrite andb_true_iff, !orb_true_iff, truthy_spec,
    !startswith_spec, str_in_spec.
  tauto.
Qed.

Lemma lstrip_suffix (s : string) : exists a, s = a ++ lstrip s.
Proof.
  induction s as [|c s [a IH]]; simpl.
  - now exists "".
  - destruct (is_space c).
    + exists (String c a). simpl. now rewrite <- IH.
    + now exists "".
Qed.

Lemma rstrip_prefix (s : string) : exists b, s = rstrip s ++ b.
Proof.
  induction s as [|c s [b IH]]; simpl.
  - now exists "".
  - destruct (rstrip s) as [|d t] eqn:E.
    + destruct (is_space c).
      * now exists (String c s).
      * exists s. reflexivity.
    + exists b. simpl in *. now rewrite <- IH.
Qed.

Lemma strip_prefix_in_body (body p t : string) :
  strip body = p ++ t -> str_in p body = true.
Proof.
  intros H. apply str_in_spec.
  destruct (lstrip_suffix body) as [a Ha].
  destruct (rstrip_prefix (lstrip body)) as [b Hb].
  fold (strip body) in Hb. rewrite H in Hb.
  exists a, (t ++ b). rewrite Ha at 1. rewrite Hb.
  now rewrite append_assoc.
Qed.

Lemma unmarked_not_detected (body : string) :
  spec_contains_html_marker body = false -> html_detected (Some body) = false.
Proof.
  unfold spec_contains_html_marker. intros H.
  apply orb_false_iff in H as [H Hbody].
  apply orb_false_iff in H as [Hdoc Hhtml].
  destruct (html_detected (Some body)) eqn:E; [|reflexivity].
  apply html_detected_spec in E as [_ [[t Ht]|[[t Ht]|Hb]]].
  - apply strip_prefix_in_body in Ht. congruence.
  - apply strip_prefix_in_body in Ht. congruence.
  - apply str_in_spec in Hb. congruence.
Qed.

(** C5, as amended.  The body is replaced by its html2text conversion
    exactly when it is non-empty and either its whitespace-stripped text
    starts with "<!DOCTYPE" or "<html", or it contains "<body" anywhere;
    otherwise it is rendered unchanged.  In particular a body that contains
    none of the three markers is never converted. *)
Theorem format_gmail_markdown_converts_iff_marked
    (handle : string -> string) (subject author to body : string)
    (email_id : option string) :
  (html_marked body ->
     format_gmail_markdown handle subject author to (Some body) email_id
     = markdown_template subject author to (id_section email_id)
         (Some (handle body))) /\
  (~ html_marked body ->
     format_gmail_markdown handle subject author to (Some body) email_id
     = markdown_template subject author to (id_section email_id) (Some body)) /\
  (spec_contains_html_marker body = false -> ~ html_marked body).
Proof.
  unfold format_gmail_markdown. repeat split.
  - intros H. apply html_detected_spec in H. now rewrite H.
  - intros H. destruct (html_detected (Some body)) eqn:E; [|reflexivity].
    apply html_detected_spec in E. contradiction.
  - intros H M. apply html_detected_spec in M.
    rewrite (unmarked_not_detected _ H) in M. discriminate.
Qed.

Lemma html_marked_example : html_marked "  <html><p>x</p></html>".
Proof.
  split; [discriminate|]. right; left.
  exists "><p>x</p></html>". vm_compute. reflexivity.
Qed.

Lemma format_gmail_markdown_converts_iff_marked_witness :
  format_gmail_markdown (fun _ => "x") "s" "a" "t"
    (Some "  <html><p>x</p></html>") None
  = markdown_template "s" "a" "t" "" (Some "x").
Proof.
  exact (proj1 (format_gmail_markdown_converts_iff_marked
                  (fun _ => "x") "s" "a" "t" "  <html><p>x</p></html>" None)
           html_marked_example).
Defined.

(** C5, as stated, fails: a body with an html tag after some text contains
    a marker, yet it is rendered unconverted. *)
Lemma format_gmail_markdown_html_tag_inside_not_converted :
  spec_contains_html_marker "Hi <html><p>x</p></html>" = true /\
  format_gmail_markdown (fun _ => "CONVERTED") "s" "a" "t"
    (Some "Hi <html><p>x</p></html>") None
  = markdown_template "s" "a" "t" "" (Some "Hi <html><p>x</p></html>") /\
  format_gmail_markdown (fun _ => "CONVERTED") "s" "a" "t"
    (Some "Hi <html><p>x</p></html>") None
  <> markdown_template "s" "a" "t" "" (Some "CONVERTED").
Proof.
  repeat split; try reflexivity. vm_compute. discriminate.
Qed.

End FormatProofs.

(** ** [get_credentials]: priority of the sources *)
Module CredentialsProofs.
Import Py Credentials.

(** Case analysis on what each source holds. *)
Ltac sources :=
  repeat (match goal with
          | |- context [truthy ?s] => destruct (truthy s) eqn:?
          | |- context [json_truthy ?v] => destruct (json_truthy v) eqn:?
          | |- context [Z.eqb ?n 0] => destruct (Z.eqb n 0) eqn:?
          | |- context [match ?f ?s with Some _ => _ | None => _ end] =>
              is_var f; destruct (f s) as [[]|] eqn:?
          | |- context [if ?b then _ else _] => is_var b; destruct b
          | |- context [match ?l with [] => _ | _ :: _ => _ end] =>
              is_var l; destruct l
          end; simpl in *; try discriminate).

Section WithJson.
Variable json_loads : string -> option json.

Lemma make_credentials_null :
  make_credentials JNull
  = Raise (AttributeError "'NoneType' object has no attribute 'get'").
Proof. reflexivity. Qed.

Lemma non_null_some (o : option json) (v : json) :
  non_null o = Some v -> o = Some v /\ is_none v = false.
Proof.
  destruct o as [w|]; simpl; [|discriminate].
  destruct (is_none w) eqn:E; [discriminate|].
  intros [= ->]. now split.
Qed.

(** The mutable [token_data] variable and its three guarded assignments
    amount to a search for the first offer that is not null. *)
Lemma get_credentials_resolution
    (gmail_token : token_arg) (env_token : option string) (file : token_file) :
  get_credentials json_loads gmail_token env_token file
  = match first_available
            [non_null (param_offer json_loads gmail_token);
             non_null (env_offer json_loads env_token);
             non_null (file_offer json_loads file)] with
    | Some v => make_credentials v
    | None => Raise (ValueError no_credentials_message)
    end.
Proof.
  unfold get_credentials, param_offer, env_offer, file_offer.
  destruct gmail_token as [|s|[]], env_token as [env|], file as [|e|text];
    simpl; sources; reflexivity.
Qed.



End WithJson.



(** The order itself, on three sources that all hold a token. *)
Example get_credentials_parameter_first :
  get_credentials example_loads (ArgStr (token_doc "P")) (Some (token_doc "E"))
    (FileContent (token_doc "F"))
  = make_credentials (JDict [("token", JStr "P")]).
Proof. reflexivity. Qed.

Example get_credentials_unparsable_parameter_then_env :
  get_credentials example_loads (ArgStr "{oops") (Some (token_doc "E"))
    (FileContent (token_doc "F"))
  = make_credentials (JDict [("token", JStr "E")]).
Proof. reflexivity. Qed.

Example get_credentials_file_last :
  get_credentials example_loads ArgNone None (FileContent (token_doc "F"))
  = make_credentials (JDict [("token", JStr "F")]).
Proof. reflexivity. Qed.

End CredentialsProofs.

(** ** [send_email] *)
Module SendProofs.
Import Py Gmail Send PyFacts.

(** C9.  The reply subject always starts with "Re:", a subject that
    already starts with "Re:" is kept as it is, and computing the reply
    subject of a reply subject changes nothing. *)
Theorem reply_subject_idempotent (subject : string) :
  startswith (reply_subject subject) "Re:" = true /\
  (startswith subject "Re:" = true -> reply_subject subject = subject) /\
  reply_subject (reply_subject subject) = reply_subject subject.
Proof.
  assert (A : startswith (reply_subject subject) "Re:" = true).
  { unfold reply_subject. destruct (startswith subject "Re:") eqn:E; simpl.
    - exact E.
    - reflexivity. }
  assert (B : forall s, startswith s "Re:" = true -> reply_subject s = s).
  { intros s H. unfold reply_subject. now rewrite H. }
  split; [exact A|]. split; [apply B|]. apply B, A.
Qed.

Lemma reply_subject_idempotent_witness :
  reply_subject "Re: lunch" = "Re: lunch".
Proof.
  apply (proj1 (proj2 (reply_subject_idempotent "Re: lunch"))). reflexivity.
Defined.

Lemma str_in_middle (a needle b : string) : str_in needle (a ++ needle ++ b) = true.
Proof. apply str_in_spec. now exists a, b. Qed.

Lemma reply_context_ok (svc : service) (email_id : string) (message : Gmail.message)
    (hs : list header) (subject original_from : string) :
  messages_get svc email_id = Ok message ->
  headers (msg_payload message) = Some hs ->
  header_value "Subject" hs = Ok subject ->
  header_value "From" hs = Ok original_from ->
  reply_context svc email_id
  = Ok (reply_subject subject, original_from, threadId message).
Proof.
  intros Hget Hhs Hsub Hfrom. unfold reply_context, index_headers.
  rewrite Hget; simpl. rewrite Hhs; simpl. rewrite Hsub; simpl.
  rewrite Hfrom; reflexivity.
Qed.

Lemma reply_context_inv (svc : service) (email_id subject original_from thread_id : string) :
  reply_context svc email_id = Ok (subject, original_from, thread_id) ->
  exists message hs original_subject,
    messages_get svc email_id = Ok message /\
    headers (msg_payload message) = Some hs /\
    header_value "Subject" hs = Ok original_subject /\
    header_value "From" hs = Ok original_from /\
    subject = reply_subject original_subject /\
    thread_id = threadId message.
Proof.
  unfold reply_context, index_headers.
  destruct (messages_get svc email_id) as [message|] eqn:Hget; simpl; [|discriminate].
  destruct (headers (msg_payload message)) as [hs|] eqn:Hhs; simpl; [|discriminate].
  destruct (header_value "Subject" hs) as [sub|] eqn:Hsub; simpl; [|discriminate].
  destruct (header_value "From" hs) as [fr|] eqn:Hfrom; simpl; [|discriminate].
  intros [= <- <- <-]. exists message, hs, sub. repeat split; assumption.
Qed.

Section WithJson.
Variable json_loads : string -> option Credentials.json.
Variable svc : service.


End WithJson.

Import Examples.


(** The same call evaluated: the reply to "Hello" goes out as
    "Re: Hello". *)
Example send_email_reply_value :
  send_email Credentials.example_loads example_service "m1" "Thanks" "me@x.org"
    None (Credentials.ArgStr (Credentials.token_doc "P")) None
    Credentials.FileAbsent
  = Outcome [SendBody (MimeText "alice@x.org" "me@x.org" "Re: Hello" None "Thanks") "t1"]
      (Ok true).
Proof. reflexivity. Qed.


Example send_email_missing_original :
  send_email Credentials.example_loads example_service "gone" "Thanks" "me@x.org"
    None (Credentials.ArgStr (Credentials.token_doc "P")) None
    Credentials.FileAbsent
  = Outcome []
      (Raise (ValueError "Could not retrieve original message gone: 404 Not Found")).
Proof. reflexivity. Qed.

End SendProofs.

(** ** The stable sort of a thread and its last message *)
Module SortFacts.
Import Py Gmail.

Section Keyed.
Context {K A : Type}.
Variable lt : K -> K -> bool.

Lemma insert_In (x y : K * A) (l : list (K * A)) :
  In y (insert lt x l) <-> y = x \/ In y l.
Proof.
  induction l as [|z l IH]; simpl.
  - intuition congruence.
  - destruct (lt (fst x) (fst z)); simpl; rewrite ?IH; intuition congruence.
Qed.

Lemma fold_insert_In (l acc : list (K * A)) (y : K * A) :
  In y (fold_left (fun acc x => insert lt x acc) l acc) <-> In y l \/ In y acc.
Proof.
  revert acc. induction l as [|x l IH]; intros acc; simpl.
  - tauto.
  - rewrite IH, insert_In. intuition congruence.
Qed.

Lemma sort_keyed_In (l : list (K * A)) (y : K * A) :
  In y (sort_keyed lt l) <-> In y l.
Proof. unfold sort_keyed. rewrite fold_insert_In. simpl. tauto. Qed.
End Keyed.

Lemma insert_sorted {A : Type} (x : Z * A) (l : list (Z * A)) :
  StronglySorted key_le l -> StronglySorted key_le (insert Z.ltb x l).
Proof.
  induction 1 as [|z l Hs IH Hall]; simpl.
  - constructor; constructor.
  - destruct (Z.ltb_spec (fst x) (fst z)) as [Hlt|Hge].
    + constructor; [now constructor|].
      constructor; [unfold key_le; lia|].
      eapply Forall_impl; [|exact Hall]. unfold key_le. intros; lia.
    + constructor; [exact IH|].
      apply Forall_forall. intros y Hy. apply insert_In in Hy as [->|Hy].
      * exact Hge.
      * rewrite Forall_forall in Hall. now apply Hall.
Qed.

Lemma sort_keyed_sorted {A : Type} (l : list (Z * A)) :
  StronglySorted key_le (sort_keyed Z.ltb l).
Proof.
  unfold sort_keyed.
  assert (G : forall acc, StronglySorted key_le acc ->
            StronglySorted key_le (fold_left (fun acc x => insert Z.ltb x acc) l acc)).
  { induction l as [|x l IH]; intros acc Hacc; simpl; [exact Hacc|].
    apply IH, insert_sorted, Hacc. }
  apply G. constructor.
Qed.

Lemma last_item_In {A : Type} (l : list A) (a : A) :
  last_item l = Ok a -> In a l.
Proof.
  induction l as [|x l IH]; simpl; [discriminate|].
  destruct l as [|y l].
  - intros [= ->]. now left.
  - intros H. right. now apply IH.
Qed.

Lemma last_item_max {A : Type} (l : list (Z * A)) (a : Z * A) :
  StronglySorted key_le l -> last_item l = Ok a ->
  forall b, In b l -> key_le b a.
Proof.
  induction 1 as [|x l Hs IH Hall]; simpl; [discriminate|].
  destruct l as [|y l].
  - intros [= ->] b [->|[]]. unfold key_le; lia.
  - intros H b [->|Hb].
    + rewrite Forall_forall in Hall. apply Hall. now apply last_item_In.
    + now apply IH.
Qed.

Lemma last_item_map {A B : Type} (f : A -> B) (l : list A) (b : B) :
  last_item (map f l) = Ok b -> exists a, last_item l = Ok a /\ f a = b.
Proof.
  induction l as [|x l IH]; simpl; [discriminate|].
  destruct l as [|y l]; simpl in *.
  - intros [= <-]. now exists x.
  - exact IH.
Qed.

Lemma with_keys_spec {K A : Type} (key : A -> result K) (l : list A)
    (keyed : list (K * A)) :
  with_keys key l = Ok keyed ->
  map snd keyed = l /\ Forall (fun p => key (snd p) = Ok (fst p)) keyed.
Proof.
  revert keyed. induction l as [|a l IH]; simpl; intros keyed.
  - intros [= <-]. split; constructor.
  - destruct (key a) as [k|] eqn:Hk; simpl; [|discriminate].
    destruct (with_keys key l) as [rest|]; simpl; [|discriminate].
    intros [= <-]. destruct (IH _ eq_refl) as [Hm Hf]. split.
    + simpl. now rewrite Hm.
    + constructor; [exact Hk|exact Hf].
Qed.

(** The same for a sort by string keys, with [String.ltb]. *)
Lemma string_compare_refl (x : string) : String.compare x x = Eq.
Proof.
  induction x as [|a x IH]; simpl; [reflexivity|].
  unfold Ascii.compare. now rewrite N.compare_refl.
Qed.

Lemma string_lt_trans (x y z : string) :
  String.compare x y = Lt -> String.compare y z = Lt -> String.compare x z = Lt.
Proof.
  revert y z. induction x as [|a x IH]; intros [|b y] [|c z]; simpl;
    try discriminate; try reflexivity.
  destruct (Ascii.compare a b) eqn:Eab; try discriminate;
    destruct (Ascii.compare b c) eqn:Ebc; try discriminate; intros Hxy Hyz.
  - apply Ascii.compare_eq_iff in Eab, Ebc. subst b c.
    unfold Ascii.compare. rewrite N.compare_refl. eapply IH; eassumption.
  - apply Ascii.compare_eq_iff in Eab. subst b. now rewrite Ebc.
  - apply Ascii.compare_eq_iff in Ebc. subst c. now rewrite Eab.
  - unfold Ascii.compare in *. rewrite N.compare_lt_iff in *.
    assert (H : (N_of_ascii a < N_of_ascii c)%N) by lia.
    apply N.compare_lt_iff in H. now rewrite H.
Qed.

Lemma string_ltb_irrefl (x : string) : String.ltb x x = false.
Proof. unfold String.ltb. now rewrite string_compare_refl. Qed.

Lemma string_ltb_trans (x y z : string) :
  String.ltb x y = true -> String.ltb y z = true -> String.ltb x z = true.
Proof.
  unfold String.ltb. intros Hxy Hyz.
  destruct (String.compare x y) eqn:E1; try discriminate.
  destruct (String.compare y z) eqn:E2; try discriminate.
  now rewrite (string_lt_trans _ _ _ E1 E2).
Qed.

Lemma insert_sorted_by_id {A : Type} (x : string * A) (l : list (string * A)) :
  StronglySorted id_le l -> StronglySorted id_le (insert String.ltb x l).
Proof.
  induction 1 as [|z l Hs IH Hall]; simpl.
  - constructor; constructor.
  - destruct (String.ltb (fst x) (fst z)) eqn:E.
    + constructor; [now constructor|].
      assert (G : forall y, id_le z y -> id_le x y).
      { unfold id_le. intros y Hzy.
        destruct (String.ltb (fst y) (fst x)) eqn:Eyx; [|reflexivity].
        rewrite (string_ltb_trans _ _ _ Eyx E) in Hzy. discriminate. }
      constructor; [apply G, string_ltb_irrefl|].
      eapply Forall_impl; [|exact Hall]. exact G.
    + constructor; [exact IH|].
      apply Forall_forall. intros y Hy. apply insert_In in Hy as [->|Hy].
      * exact E.
      * rewrite Forall_forall in Hall. now apply Hall.
Qed.

Lemma sort_keyed_sorted_by_id {A : Type} (l : list (string * A)) :
  StronglySorted id_le (sort_keyed String.ltb l).
Proof.
  unfold sort_keyed.
  assert (G : forall acc, StronglySorted id_le acc ->
            StronglySorted id_le
              (fold_left (fun acc x => insert String.ltb x acc) l acc)).
  { induction l as [|x l IH]; intros acc Hacc; simpl; [exact Hacc|].
    apply IH, insert_sorted_by_id, Hacc. }
  apply G. constructor.
Qed.

Lemma last_item_max_id {A : Type} (l : list (string * A)) (a : string * A) :
  StronglySorted id_le l -> last_item l = Ok a ->
  forall b, In b l -> id_le b a.
Proof.
  induction 1 as [|x l Hs IH Hall]; simpl; [discriminate|].
  destruct l as [|y l].
  - intros [= ->] b [->|[]]. apply string_ltb_irrefl.
  - intros H b [->|Hb].
    + rewrite Forall_forall in Hall. apply Hall. now apply last_item_In.
    + now apply IH.
Qed.

End SortFacts.

(** ** [fetch_group_emails]: the reply filter and the per-message handler *)
Module FetchProofs.
Import Py Gmail Fetch SortFacts PyFacts.

Section WithLibraries.
Variable b64decode_utf8 : string -> result string.
Variable int_of_str : string -> option Z.
Variable parse_time_iso : string -> result string.
Variable json_loads : string -> option Credentials.json.
Variable svc : service.

Local Abbreviation sort_thread := (sort_thread int_of_str).
Local Abbreviation latest_in := (latest_in int_of_str).
Local Abbreviation thread_context := (thread_context int_of_str svc).
Local Abbreviation build_record := (build_record b64decode_utf8 parse_time_iso).
Local Abbreviation process_entry :=
  (process_entry b64decode_utf8 int_of_str parse_time_iso svc).
Local Abbreviation entry_events :=
  (entry_events b64decode_utf8 int_of_str parse_time_iso svc).
Local Abbreviation process_messages :=
  (process_messages b64decode_utf8 int_of_str parse_time_iso svc).
Local Abbreviation fetch_group_emails :=
  (fetch_group_emails b64decode_utf8 int_of_str parse_time_iso json_loads svc).

Lemma sort_thread_last (ms sorted : list message) (last : message) :
  sort_thread ms = Ok sorted -> last_item sorted = Ok last -> latest_in ms last.
Proof.
  unfold Fetch.sort_thread, Fetch.latest_in.
  destruct (forallb (has_internalDate) ms) eqn:Hall.
  - destruct (with_keys (date_key int_of_str) ms) as [keyed|] eqn:Hk;
      simpl; [|discriminate].
    intros [= <-] Hlast.
    destruct (with_keys_spec _ _ _ Hk) as [Hmap Hkeys].
    rewrite Forall_forall in Hkeys.
    destruct (last_item_map _ _ _ Hlast) as ([kl l0] & Hl & Hsnd).
    simpl in Hsnd. subst l0.
    assert (Hin : In (kl, last) keyed)
      by (apply (sort_keyed_In Z.ltb), last_item_In, Hl).
    split; [|split; [|discriminate]].
    + rewrite <- Hmap. apply (in_map snd) in Hin. exact Hin.
    + intros _ m Hm. rewrite <- Hmap in Hm.
      apply in_map_iff in Hm as ([k m0] & Hs & Hp). simpl in Hs. subst m0.
      exists k, kl. split; [exact (Hkeys _ Hp)|]. split; [exact (Hkeys _ Hin)|].
      apply (last_item_max _ _ (sort_keyed_sorted keyed) Hl (k, m)).
      now apply sort_keyed_In.
  - intros [= <-] Hlast.
    destruct (last_item_map _ _ _ Hlast) as ([k l0] & Hl & Hsnd).
    simpl in Hsnd. subst l0.
    assert (Hin : In (k, last) (map (fun m => (id m, m)) ms))
      by (apply (sort_keyed_In String.ltb), last_item_In, Hl).
    apply in_map_iff in Hin as (m0 & [= Hk Hm0] & Hin). subst m0 k.
    split; [exact Hin|]. split; [discriminate|].
    intros _ m Hm.
    apply (last_item_max_id _ _ (sort_keyed_sorted_by_id _) Hl (id m, m)).
    apply sort_keyed_In, in_map_iff. now exists m.
Qed.

Lemma thread_context_inv (ref : message_ref) (msg last : message) (last_from : string) :
  thread_context ref = Ok (msg, last, last_from) ->
  exists thread hs,
    messages_get svc (ref_id ref) = Ok msg /\
    threads_get svc (threadId msg) = Ok thread /\
    latest_in (messages thread) last /\
    headers (msg_payload last) = Some hs /\
    header_value "From" hs = Ok last_from.
Proof.
  unfold Fetch.thread_context, index_headers.
  destruct (messages_get svc (ref_id ref)) as [msg0|] eqn:Hget; simpl; [|discriminate].
  destruct (threads_get svc (threadId msg0)) as [thread|] eqn:Hth; simpl; [|discriminate].
  destruct (sort_thread (messages thread)) as [sorted|] eqn:Hsort; simpl; [|discriminate].
  destruct (last_item sorted) as [last0|] eqn:Hlast; simpl; [|discriminate].
  destruct (headers (msg_payload last0)) as [hs|] eqn:Hhs; simpl; [|discriminate].
  destruct (header_value "From" hs) as [lf|] eqn:Hfrom; simpl; [|discriminate].
  intros [= <- <- <-]. exists thread, hs.
  repeat split; try assumption; eapply sort_thread_last; eassumption.
Qed.

Lemma process_messages_app (addr : string) (skip : bool) (l1 l2 : list message_ref) :
  process_messages addr skip (l1 ++ l2)
  = (process_messages addr skip l1 ++ process_messages addr skip l2)%list.
Proof.
  induction l1 as [|ref l1 IH]; simpl; [reflexivity|].
  now rewrite IH, app_assoc.
Qed.

Lemma process_messages_yield (addr : string) (skip : bool)
    (refs : list message_ref) (y : yielded) :
  In (Yield y) (process_messages addr skip refs) ->
  exists ref, In ref refs /\ process_entry addr skip ref = Ok (Some y).
Proof.
  induction refs as [|ref refs IH]; simpl; [intros []|].
  intros H. apply in_app_or in H as [H|H].
  - exists ref. split; [now left|].
    unfold Fetch.entry_events in H.
    destruct (process_entry addr skip ref) as [[y0|]|e]; simpl in H.
    + destruct H as [[= ->]|[]]. reflexivity.
    + destruct H.
    + destruct H as [H|[]]; discriminate.
  - destruct (IH H) as (r & Hin & Hr). exists r. split; [now right|exact Hr].
Qed.

(** With the filter on, a thread whose last message is from the user gives
    the short record and nothing else. *)
Lemma process_entry_responded (addr : string) (ref : message_ref)
    (msg last : message) (last_from : string) :
  thread_context ref = Ok (msg, last, last_from) ->
  str_in addr last_from = true ->
  process_entry addr false ref = Ok (Some (Responded (ref_id ref) (threadId msg))).
Proof.
  intros Hctx Hin. unfold Fetch.process_entry. rewrite Hctx. simpl.
  now rewrite Hin.
Qed.

(** With the filter off, the record is built from the last message of the
    thread whatever its From header holds. *)
Lemma process_entry_unfiltered (addr : string) (ref : message_ref)
    (msg last : message) (last_from from_header : string) :
  thread_context ref = Ok (msg, last, last_from) ->
  header_value "From" (get_headers (msg_payload msg)) = Ok from_header ->
  process_entry addr true ref
  = (r <- build_record (id last) (threadId last) (msg_payload last) ;;
     Ok (Some (Email r))).
Proof.
  intros Hctx Hfrom. unfold Fetch.process_entry. rewrite Hctx. simpl.
  now rewrite Hfrom.
Qed.

(** What a full record yielded with the filter on says about its entry. *)
Lemma process_entry_email_inv (addr : string) (ref : message_ref) (r : email_record) :
  process_entry addr false ref = Ok (Some (Email r)) ->
  exists msg last last_from from_header,
    thread_context ref = Ok (msg, last, last_from) /\
    str_in addr last_from = false /\
    header_value "From" (get_headers (msg_payload msg)) = Ok from_header /\
    str_in addr from_header = false /\
    ref_id ref = id last /\
    build_record (ref_id ref) (ref_threadId ref) (msg_payload msg) = Ok r.
Proof.
  unfold Fetch.process_entry.
  destruct (thread_context ref) as [[[msg last] lf]|] eqn:Hctx; simpl; [|discriminate].
  destruct (str_in addr lf) eqn:Hlf; simpl; [discriminate|].
  destruct (header_value "From" (get_headers (msg_payload msg))) as [fh|] eqn:Hfh;
    simpl; [|discriminate].
  destruct (str_in addr fh) eqn:Hu; simpl; [discriminate|].
  destruct (String.eqb (ref_id ref) (id last)) eqn:Hid; simpl; [|discriminate].
  destruct (build_record (ref_id ref) (ref_threadId ref) (msg_payload msg))
    as [r0|] eqn:Hb; simpl; [|discriminate].
  intros [= <-]. exists msg, last, lf, fh.
  apply String.eqb_eq in Hid. repeat split; assumption.
Qed.

Lemma build_record_id (i t : string) (p : payload) (r : email_record) :
  build_record i t p = Ok r -> rec_id r = i /\ rec_thread_id r = t.
Proof.
  unfold Fetch.build_record.
  destruct (header_value "Subject" (get_headers p)); simpl; [|discriminate].
  destruct (header_value "Date" (get_headers p)); simpl; [|discriminate].
  destruct (parse_time_iso _); simpl; [|discriminate].
  destruct (extract_message_part b64decode_utf8 p); simpl; [|discriminate].
  intros [= <-]. now split.
Qed.

Lemma fetch_group_emails_events (fuel : nat) (addr after : string)
    (gmail_token : Credentials.token_arg) (env_token : option string)
    (file : Credentials.token_file) (include_read skip : bool)
    (events : list event) :
  fetch_group_emails fuel addr after gmail_token env_token file include_read skip
  = Some (Ok events) ->
  exists refs,
    list_messages svc fuel (search_query addr after include_read) None []
    = Some (Ok refs) /\
    events = process_messages addr skip refs.
Proof.
  unfold Fetch.fetch_group_emails.
  destruct (Credentials.get_credentials _ _ _ _); [|discriminate].
  destruct (list_messages _ _ _ _ _) as [[refs|]|]; try discriminate.
  intros [= <-]. now exists refs.
Qed.

Lemma fetch_group_emails_run (fuel : nat) (addr after : string)
    (gmail_token : Credentials.token_arg) (env_token : option string)
    (file : Credentials.token_file) (include_read skip : bool)
    (creds : Credentials.credentials) (refs : list message_ref) :
  Credentials.get_credentials json_loads gmail_token env_token file = Ok creds ->
  list_messages svc fuel (search_query addr after include_read) None []
  = Some (Ok refs) ->
  fetch_group_emails fuel addr after gmail_token env_token file include_read skip
  = Some (Ok (process_messages addr skip refs)).
Proof.
  intros Hc Hl. unfold Fetch.fetch_group_emails. now rewrite Hc, Hl.
Qed.


Lemma process_messages_yields (addr : string) (skip : bool)
    (refs : list message_ref) (ref : message_ref) (y : yielded) :
  In ref refs -> process_entry addr skip ref = Ok (Some y) ->
  In (Yield y) (process_messages addr skip refs).
Proof.
  induction refs as [|r refs IH]; simpl; [intros []|].
  intros [->|Hin] Hp; apply in_or_app.
  - left. unfold Fetch.entry_events. rewrite Hp. now left.
  - right. now apply IH.
Qed.

(** C7.  When handling one entry raises, the batch gets one warning line
    naming the entry and the exception; the events of the entries before
    and after it are unchanged, so every record that another entry of the
    batch yields, before or after the failing one, is still in the
    output; and the generator as a whole completes with these events. *)
Theorem fetch_failed_entry_is_skipped (addr : string) (skip : bool)
    (before after : list message_ref) (ref : message_ref) (e : exn) :
  process_entry addr skip ref = Raise e ->
  process_messages addr skip (before ++ ref :: after)
  = (process_messages addr skip before
     ++ [failure_line ref e]
     ++ process_messages addr skip after)%list /\
  In (Warning ("Failed to process message " ++ ref_id ref ++ ": " ++ str_exn e))
     (process_messages addr skip (before ++ ref :: after)) /\
  (forall other y,
     In other (before ++ after) ->
     process_entry addr skip other = Ok (Some y) ->
     In (Yield y) (process_messages addr skip (before ++ ref :: after))) /\
  (forall fuel after_ts gmail_token env_token file include_read creds,
     Credentials.get_credentials json_loads gmail_token env_token file = Ok creds ->
     list_messages svc fuel (search_query addr after_ts include_read) None []
     = Some (Ok (before ++ ref :: after)%list) ->
     fetch_group_emails fuel addr after_ts gmail_token env_token file
       include_read skip
     = Some (Ok (process_messages addr skip before
                 ++ [failure_line ref e]
                 ++ process_messages addr skip after)%list)).
Proof.
  intros Hr.
  assert (Hb : process_messages addr skip (before ++ ref :: after)
               = (process_messages addr skip before
                  ++ [failure_line ref e]
                  ++ process_messages addr skip after)%list).
  { rewrite process_messages_app. simpl. unfold Fetch.entry_events.
    now rewrite Hr. }
  split; [exact Hb|]. split; [|split].
  - rewrite Hb. apply in_or_app. right. now left.
  - intros other y Hin Hp. apply process_messages_yields with (ref := other);
      [|exact Hp].
    apply in_app_or in Hin as [Hin|Hin]; apply in_or_app;
      [now left|right; now right].
  - intros fuel after_ts tok env file inc creds Hc Hl.
    rewrite (fetch_group_emails_run _ _ _ _ _ _ _ _ _ _ Hc Hl). now rewrite Hb.
Qed.

(** C10, as amended.  With [skip_filters=False], every full record the
    generator yields carries the identifier of a listed entry that is the
    last message of its thread in the order the code sorts it: the
    chronologically last one when every message of the thread carries
    [internalDate], the one with the greatest id otherwise; and the From
    header of that entry does not contain the target address. *)
Theorem fetch_full_records_are_latest_unanswered (fuel : nat)
    (addr after : string) (gmail_token : Credentials.token_arg)
    (env_token : option string) (file : Credentials.token_file)
    (include_read : bool) (events : list event) (r : email_record) :
  fetch_group_emails fuel addr after gmail_token env_token file include_read false
  = Some (Ok events) ->
  In (Yield (Email r)) events ->
  exists refs ref msg thread last from_header,
    list_messages svc fuel (search_query addr after include_read) None []
    = Some (Ok refs) /\
    In ref refs /\
    rec_id r = ref_id ref /\
    messages_get svc (ref_id ref) = Ok msg /\
    threads_get svc (threadId msg) = Ok thread /\
    latest_in (messages thread) last /\
    id last = ref_id ref /\
    header_value "From" (get_headers (msg_payload msg)) = Ok from_header /\
    str_in addr from_header = false.
Proof.
  intros Hrun Hin.
  destruct (fetch_group_emails_events _ _ _ _ _ _ _ _ _ Hrun) as (refs & Hl & ->).
  destruct (process_messages_yield _ _ _ _ Hin) as (ref & Href & Hp).
  destruct (process_entry_email_inv _ _ _ Hp)
    as (msg & last & lf & fh & Hctx & _ & Hfh & Hu & Hid & Hb).
  destruct (thread_context_inv _ _ _ _ Hctx) as (th & hs & Hget & Hth & Hlast & _).
  exists refs, ref, msg, th, last, fh.
  split; [exact Hl|]. split; [exact Href|].
  split; [exact (proj1 (build_record_id _ _ _ _ Hb))|].
  split; [exact Hget|]. split; [exact Hth|]. split; [exact Hlast|].
  split; [now symmetry|]. split; assumption.
Qed.

End WithLibraries.

Import Examples.

Local Abbreviation run_entries :=
  (Fetch.process_messages example_decode example_int example_parse_time
     example_service).
Local Abbreviation run_fetch :=
  (Fetch.fetch_group_emails example_decode example_int example_parse_time
     Credentials.example_loads example_service).


(** The entry "gone" cannot be fetched; the answered thread before it
    and the record of m1 after it are in the output all the same. *)
Lemma fetch_failed_entry_is_skipped_witness :
  In (Yield (Email m1_record))
     (run_entries "me@x.org" false
        ([MessageRef "m2" "t2"] ++ MessageRef "gone" "t9" :: [MessageRef "m1" "t1"])) /\
  run_entries "me@x.org" false
    ([MessageRef "m2" "t2"] ++ MessageRef "gone" "t9" :: [MessageRef "m1" "t1"])
  = [Yield (Responded "m2" "t2");
     Warning "Failed to process message gone: 404 Not Found";
     Yield (Email m1_record)].
Proof.
  split; [|reflexivity].
  apply (proj1 (proj2 (proj2
           (fetch_failed_entry_is_skipped example_decode example_int
              example_parse_time Credentials.example_loads example_service
              "me@x.org" false [MessageRef "m2" "t2"] [MessageRef "m1" "t1"]
              (MessageRef "gone" "t9") (HttpError "404 Not Found") eq_refl)))
           (MessageRef "m1" "t1") (Email m1_record)).
  - right. now left.
  - reflexivity.
Defined.

(** Both messages of thread t4 are listed; only m5, the later one, is
    yielded. *)
Lemma fetch_full_records_are_latest_unanswered_witness :
  exists refs ref msg thread last from_header,
    list_messages thread_listing_service 5
      (search_query "me@x.org" "1700000000" false) None [] = Some (Ok refs) /\
    In ref refs /\
    rec_id m5_record = ref_id ref /\
    messages_get thread_listing_service (ref_id ref) = Ok msg /\
    threads_get thread_listing_service (threadId msg) = Ok thread /\
    latest_in example_int (messages thread) last /\
    id last = ref_id ref /\
    header_value "From" (get_headers (msg_payload msg)) = Ok from_header /\
    str_in "me@x.org" from_header = false.
Proof.
  apply (fetch_full_records_are_latest_unanswered example_decode example_int
           example_parse_time Credentials.example_loads thread_listing_service
           5 "me@x.org" "1700000000"
           (Credentials.ArgStr (Credentials.token_doc "P")) None
           Credentials.FileAbsent false
           [Yield (Email m5_record)]).
  - reflexivity.
  - left. reflexivity.
Defined.

(** C10, as stated, fails: in thread t7 one message has no [internalDate],
    so the thread is sorted by id and c3 comes last; c3 is yielded as a
    full record although b2 of the same thread has the later
    [internalDate]. *)
Lemma fetch_yields_last_by_id_not_by_date :
  Fetch.fetch_group_emails example_decode example_int example_parse_time
    Credentials.example_loads undated_service 5 "me@x.org" "1700000000"
    (Credentials.ArgStr (Credentials.token_doc "P")) None Credentials.FileAbsent
    false false
  = Some (Ok [Yield (Email c3_record)]) /\
  threads_get undated_service "t7" = Ok (Thread [b2; a1; c3]) /\
  Fetch.date_key example_int c3 = Ok 100%Z /\
  Fetch.date_key example_int b2 = Ok 200%Z.
Proof. repeat split; reflexivity. Qed.

(** The whole run on the example mailbox, with and without the filter. *)
Example fetch_group_emails_filtered :
  run_fetch 5 "me@x.org" "1700000000"
    (Credentials.ArgStr (Credentials.token_doc "P")) None Credentials.FileAbsent
    false false
  = Some (Ok [failure_line (MessageRef "gone" "t9") (HttpError "404 Not Found");
              Yield (Email m1_record); Yield (Responded "m2" "t2")]).
Proof. reflexivity. Qed.

Example fetch_group_emails_unfiltered :
  run_fetch 5 "me@x.org" "1700000000"
    (Credentials.ArgStr (Credentials.token_doc "P")) None Credentials.FileAbsent
    false true
  = Some (Ok [failure_line (MessageRef "gone" "t9") (HttpError "404 Not Found");
              Yield (Email m1_record);
              Yield (Email (EmailRecord "Me <me@x.org>" "me@x.org" "Re: Plan"
                              "hello" "m3" "t2" "Mon, 1 Jan 2024"));
              Yield (Email (EmailRecord "carol@x.org" "me@x.org" "New"
                              "hello" "m5" "t4" "Mon, 1 Jan 2024"))]).
Proof. reflexivity. Qed.

End FetchProofs.

(** ** Order of naive datetimes *)
Module DatetimeFacts.
Import Py Datetime Calendar.
Local Open Scope Z_scope.

Lemma tuple_lt_irrefl (x : list Z) : tuple_lt x x = false.
Proof.
  induction x as [|a x IH]; simpl; [reflexivity|].
  now rewrite Z.ltb_irrefl, Z.eqb_refl, IH.
Qed.

Lemma tuple_lt_trans (x y z : list Z) :
  tuple_lt x y = true -> tuple_lt y z = true -> tuple_lt x z = true.
Proof.
  revert y z. induction x as [|a x IH]; intros [|b y] [|c z]; simpl;
    try discriminate; try reflexivity.
  rewrite !orb_true_iff, !andb_true_iff, !Z.ltb_lt, !Z.eqb_eq.
  intros [H1|[H1 H1']] [H2|[H2 H2']].
  - left; lia.
  - left; lia.
  - left; lia.
  - right. split; [lia|]. eapply IH; eassumption.
Qed.

Lemma tuple_lt_total (x y : list Z) :
  tuple_lt x y = false -> tuple_lt y x = false -> x = y.
Proof.
  revert y. induction x as [|a x IH]; intros [|b y]; simpl;
    try discriminate; try reflexivity.
  rewrite !orb_false_iff, !andb_false_iff, !Z.ltb_ge, !Z.eqb_neq.
  intros [H1 H1'] [H2 H2'].
  assert (a = b) by lia. subst b. f_equal.
  apply IH.
  - destruct H1' as [H|H]; [congruence|exact H].
  - destruct H2' as [H|H]; [congruence|exact H].
Qed.

Lemma tuple_le_cases (x y : list Z) :
  tuple_lt y x = false -> tuple_lt x y = true \/ x = y.
Proof.
  intros H. destruct (tuple_lt x y) eqn:E; [now left|right].
  now apply tuple_lt_total.
Qed.

Lemma naive_le_refl (a : datetime) : naive_le a a.
Proof. apply tuple_lt_irrefl. Qed.

Lemma naive_le_trans (a b c : datetime) :
  naive_le a b -> naive_le b c -> naive_le a c.
Proof.
  unfold naive_le. intros Hab Hbc.
  destruct (tuple_lt (fields c) (fields a)) eqn:E; [|reflexivity].
  destruct (tuple_le_cases _ _ Hab) as [H|H].
  - rewrite (tuple_lt_trans _ _ _ E H) in Hbc. discriminate.
  - rewrite <- H in Hbc. congruence.
Qed.

Lemma naive_lt_le (a b : datetime) : naive_lt a b -> naive_le a b.
Proof.
  unfold naive_lt, naive_le. intros H.
  destruct (tuple_lt (fields b) (fields a)) eqn:E; [|reflexivity].
  pose proof (tuple_lt_trans _ _ _ H E) as T.
  rewrite tuple_lt_irrefl in T. discriminate.
Qed.

Lemma lt_naive (a b : datetime) :
  naive a -> naive b -> lt a b = Ok (tuple_lt (fields a) (fields b)).
Proof. unfold naive, lt. now intros -> ->. Qed.

End DatetimeFacts.

(** ** [get_calendar_events]: the free-slot walk and the report *)
Module CalendarProofs.
Import Py Datetime Calendar DatetimeFacts PyFacts.
Local Arguments tuple_lt : simpl never.
Local Arguments fields : simpl never.

Lemma chain_from_weaken (lo lo' : datetime) (slots : list (datetime * datetime)) :
  naive_le lo lo' -> chain_from lo' slots -> chain_from lo slots.
Proof.
  destruct slots as [|[a b] rest]; simpl; [trivial|].
  intros Hlo (Ha & Hab & Hrest). repeat split; try assumption.
  eapply naive_le_trans; eassumption.
Qed.

Lemma chain_from_snoc (lo final w : datetime) (slots : list (datetime * datetime)) :
  chain_from lo slots ->
  Forall (fun s => naive_le (snd s) final) slots ->
  naive_le lo final -> naive_lt final w ->
  chain_from lo (slots ++ [(final, w)]).
Proof.
  revert lo. induction slots as [|[a b] rest IH]; simpl; intros lo Hc Hends Hlo Hw.
  - repeat split; assumption.
  - destruct Hc as (Ha & Hab & Hrest). inversion Hends as [|? ? Hb Hends']; subst.
    repeat split; try assumption. apply IH; assumption.
Qed.

(** On well-formed naive intervals the walk never raises, and the gaps it
    collects form a chain that starts at [current] and ends no later than
    the final [current]. *)
Lemma walk_busy_chain (busy : list (datetime * datetime)) :
  Forall well_formed busy ->
  forall current, naive current ->
  exists slots final,
    walk_busy current busy = Ok (slots, final) /\
    naive final /\ naive_le current final /\
    chain_from current slots /\
    Forall (fun s => naive_le (snd s) final) slots.
Proof.
  induction 1 as [|[start end_] busy (Hs & He & Hse) Hall IH]; intros current Hn.
  - exists [], current. simpl. repeat split; auto using naive_le_refl.
  - simpl in Hs, He, Hse. simpl.
    rewrite (lt_naive _ _ Hn Hs). simpl.
    unfold Datetime.max. rewrite (lt_naive _ _ Hn He). simpl.
    set (current' := if tuple_lt (fields current) (fields end_) then end_ else current).
    assert (Hn' : naive current')
      by (unfold current'; destruct (tuple_lt _ _); assumption).
    assert (Hcc : naive_le current current').
    { unfold current'. destruct (tuple_lt (fields current) (fields end_)) eqn:E.
      - now apply naive_lt_le.
      - apply naive_le_refl. }
    assert (Hec : naive_le end_ current').
    { unfold current'. destruct (tuple_lt (fields current) (fields end_)) eqn:E.
      - apply naive_le_refl.
      - exact E. }
    destruct (IH current' Hn') as (slots & final & Hw & Hnf & Hcf & Hch & Hends).
    rewrite Hw. simpl.
    destruct (tuple_lt (fields current) (fields start)) eqn:Hfree.
    + exists ((current, start) :: slots), final. repeat split; try assumption.
      * eapply naive_le_trans; eassumption.
      * apply naive_le_refl.
      * eapply chain_from_weaken; [|exact Hch].
        eapply naive_le_trans; eassumption.
      * constructor; [|exact Hends]. simpl.
        eapply naive_le_trans; [exact Hse|].
        eapply naive_le_trans; eassumption.
    + exists slots, final. repeat split; try assumption.
      * eapply naive_le_trans; eassumption.
      * eapply chain_from_weaken; eassumption.
Qed.

(** The part of C2 that holds: on well-formed naive intervals the slots are
    computed, each is non-empty and starts no earlier than [work_start],
    and they are in ascending order without overlap. *)
Lemma available_slots_chain (work_start work_end : datetime)
    (busy : list (datetime * datetime)) :
  naive work_start -> naive work_end -> Forall well_formed busy ->
  exists slots,
    available_slots work_start work_end busy = Ok slots /\
    chain_from work_start slots.
Proof.
  intros Hs He Hb.
  destruct (walk_busy_chain busy Hb work_start Hs)
    as (slots & final & Hw & Hnf & Hcf & Hch & Hends).
  unfold available_slots. rewrite Hw. simpl.
  rewrite (lt_naive _ _ Hnf He). simpl.
  destruct (tuple_lt (fields final) (fields work_end)) eqn:E.
  - eexists. split; [reflexivity|]. now apply chain_from_snoc.
  - eexists. split; [reflexivity|exact Hch].
Qed.

Section WithLibraries.
Variable int_of_str : string -> option Z.
Variable json_loads : string -> option Credentials.json.
Variable events_list : calendar_service.

Lemma date_sections_app (before after : list string) (b a : string) :
  date_sections int_of_str events_list before = Ok b ->
  date_sections int_of_str events_list after = Ok a ->
  date_sections int_of_str events_list (before ++ after) = Ok (b ++ a).
Proof.
  revert b. induction before as [|d before IH]; simpl; intros b Hb Ha.
  - injection Hb as <-. exact Ha.
  - destruct (date_section int_of_str events_list d) as [sec|]; simpl in *;
      [|discriminate].
    destruct (date_sections int_of_str events_list before) as [secs|]; simpl in *;
      [|discriminate].
    injection Hb as <-. rewrite (IH secs eq_refl Ha). simpl.
    now rewrite append_assoc.
Qed.

(** C4, as amended.  For a date in D-M-Y form on which the provider
    returns no events, the text for that date is the heading followed by
    "No events found" and "Available all day"; the working-hours window is
    not computed.  The same text appears for that date in the report over
    a list of dates. *)
Theorem get_calendar_events_no_events (date_str day month year : string) :
  unpack_date date_str = Ok (day, month, year) ->
  (events_list (year ++ "-" ++ month ++ "-" ++ day ++ "T00:00:00Z")
               (year ++ "-" ++ month ++ "-" ++ day ++ "T23:59:59Z") = Ok None \/
   events_list (year ++ "-" ++ month ++ "-" ++ day ++ "T00:00:00Z")
               (year ++ "-" ++ month ++ "-" ++ day ++ "T23:59:59Z") = Ok (Some [])) ->
  date_section int_of_str events_list date_str = Ok (no_events_report date_str) /\
  (forall before after b a gmail_token env_token file creds,
     Credentials.get_credentials json_loads gmail_token env_token file = Ok creds ->
     date_sections int_of_str events_list before = Ok b ->
     date_sections int_of_str events_list after = Ok a ->
     get_calendar_events int_of_str json_loads events_list
       (before ++ date_str :: after) gmail_token env_token file
     = Ok ("Calendar events:" ++ nl ++ nl
             ++ b ++ no_events_report date_str ++ a)).
Proof.
  intros Hu Hev.
  assert (Hsec : date_section int_of_str events_list date_str
                 = Ok (no_events_report date_str)).
  { unfold date_section. rewrite Hu. cbn [bind].
    destruct Hev as [H | H]; rewrite H; cbn [bind];
      unfold no_events_report; now rewrite !append_assoc. }
  split; [exact Hsec|].
  intros before after b a tok env file creds Hc Hb Ha.
  unfold get_calendar_events. rewrite Hc. simpl.
  erewrite date_sections_app; [reflexivity|exact Hb|].
  simpl. rewrite Hsec, Ha. reflexivity.
Qed.

End WithLibraries.

Import Examples.

Lemma get_calendar_events_no_events_witness :
  date_section example_int empty_calendar "01-01-2024"
  = Ok (no_events_report "01-01-2024").
Proof.
  exact (proj1 (get_calendar_events_no_events example_int
                  Credentials.example_loads empty_calendar
                  "01-01-2024" "01" "01" "2024" eq_refl (or_intror eq_refl))).
Defined.

(** C4, as stated, fails: for a day without events the report says
    "Available all day" and does not mention the 9:00 AM to 5:00 PM
    window. *)
Lemma get_calendar_events_no_events_prints_no_window :
  get_calendar_events example_int Credentials.example_loads empty_calendar
    ["01-01-2024"] token_P None Credentials.FileAbsent
  = Ok ("Calendar events:" ++ nl ++ nl ++
        "Events for 01-01-2024:" ++ nl ++
        "  No events found" ++ nl ++
        "  Available all day" ++ nl ++ nl) /\
  str_in "09:00 AM"
    ("Calendar events:" ++ nl ++ nl ++
     "Events for 01-01-2024:" ++ nl ++
     "  No events found" ++ nl ++
     "  Available all day" ++ nl ++ nl) = false /\
  str_in "05:00 PM"
    ("Calendar events:" ++ nl ++ nl ++
     "Events for 01-01-2024:" ++ nl ++
     "  No events found" ++ nl ++
     "  Available all day" ++ nl ++ nl) = false.
Proof. repeat split; reflexivity. Qed.

(** The window is printed when the gap walk runs and finds the whole day
    free, for instance with one event before working hours. *)
Example get_calendar_events_early_event :
  get_calendar_events example_int Credentials.example_loads early_calendar
    ["01-01-2024"] token_P None Credentials.FileAbsent
  = Ok ("Calendar events:" ++ nl ++ nl ++
        "Events for 01-01-2024:" ++ nl ++
        "  - 07:00 AM - 08:00 AM: Run" ++ nl ++
        "  Available: 09:00 AM - 05:00 PM" ++ nl ++ nl).
Proof. reflexivity. Qed.

Example get_calendar_events_two_meetings :
  get_calendar_events example_int Credentials.example_loads busy_calendar
    ["01-01-2024"] token_P None Credentials.FileAbsent
  = Ok ("Calendar events:" ++ nl ++ nl ++
        "Events for 01-01-2024:" ++ nl ++
        "  - 10:00 AM - 11:00 AM: Standup" ++ nl ++
        "  - 02:00 PM - 03:30 PM: Review" ++ nl ++
        "  Available: 09:00 AM - 10:00 AM, 11:00 AM - 02:00 PM, 03:30 PM - 05:00 PM"
        ++ nl ++ nl).
Proof. reflexivity. Qed.

(** C2 at two inputs.  An event from 18:00 to 19:00 (dateTime without
    offset) gives the single slot 09:00-18:00, which ends after the end of
    working hours, and the report prints it.  An event whose dateTime
    carries an offset makes the comparison with the naive [work_start]
    raise, so no slots are reported at all. *)
Theorem get_calendar_events_slot_beyond_working_hours :
  day_slots example_int "2024" "01" "01" [Busy (at_ 18 0 None) (at_ 19 0 None)]
  = Ok [(at_ 9 0 None, at_ 18 0 None)] /\
  naive_lt (at_ 17 0 None) (at_ 18 0 None) /\
  get_calendar_events example_int Credentials.example_loads evening_calendar
    ["01-01-2024"] token_P None Credentials.FileAbsent
  = Ok ("Calendar events:" ++ nl ++ nl ++
        "Events for 01-01-2024:" ++ nl ++
        "  - 06:00 PM - 07:00 PM: Dinner" ++ nl ++
        "  Available: 09:00 AM - 06:00 PM" ++ nl ++ nl) /\
  get_calendar_events example_int Credentials.example_loads utc_calendar
    ["01-01-2024"] token_P None Credentials.FileAbsent
  = Raise (TypeError "can't compare offset-naive and offset-aware datetimes").
Proof. repeat split; reflexivity. Qed.

End CalendarProofs.

(** ** Further properties of [get_credentials] *)
Module CredentialsExtra.
Import Py Credentials CredentialsProofs.

Section WithJson.
Variable json_loads : string -> option json.

(** X1.  When the first source that offers non-null data offers something
    that is not a JSON object, [AttributeError] is raised on the first
    [.get]; the later sources are not tried. *)
Theorem get_credentials_non_object_raises
    (gmail_token : token_arg) (env_token : option string) (file : token_file)
    (v : json) :
  first_available
    [non_null (param_offer json_loads gmail_token);
     non_null (env_offer json_loads env_token);
     non_null (file_offer json_loads file)] = Some v ->
  (forall d, v <> JDict d) ->
  get_credentials json_loads gmail_token env_token file
  = Raise (AttributeError
             ("'" ++ type_name v ++ "' object has no attribute 'get'")).
Proof.
  intros Hv Hd. rewrite get_credentials_resolution, Hv.
  destruct v; try reflexivity. now contradiction (Hd d).
Qed.

(** X2.  When that first source offers a JSON object, the call always
    returns credentials: each field is the object's value for its key,
    [None] for a missing key, and the documented defaults for a missing
    [token_uri] or [scopes].  No key is required. *)
Theorem get_credentials_object_succeeds
    (gmail_token : token_arg) (env_token : option string) (file : token_file)
    (d : list (string * json)) :
  first_available
    [non_null (param_offer json_loads gmail_token);
     non_null (env_offer json_loads env_token);
     non_null (file_offer json_loads file)] = Some (JDict d) ->
  get_credentials json_loads gmail_token env_token file
  = Ok (Credentials
          (dict_get d "token" JNull)
          (dict_get d "refresh_token" JNull)
          (dict_get d "token_uri" (JStr "https://oauth2.googleapis.com/token"))
          (dict_get d "client_id" JNull)
          (dict_get d "client_secret" JNull)
          (dict_get d "scopes"
             (JList [JStr "https://www.googleapis.com/auth/gmail.modify"]))).
Proof.
  intros Hv. rewrite get_credentials_resolution, Hv. reflexivity.
Qed.

End WithJson.

Lemma get_credentials_non_object_raises_witness :
  get_credentials example_loads (ArgObj (JList [JNum 1])) (Some (token_doc "E"))
    FileAbsent
  = Raise (AttributeError "'list' object has no attribute 'get'").
Proof.
  apply (get_credentials_non_object_raises example_loads
           (ArgObj (JList [JNum 1])) (Some (token_doc "E")) FileAbsent
           (JList [JNum 1]) eq_refl).
  intros d. discriminate.
Defined.

Lemma get_credentials_object_succeeds_witness :
  get_credentials example_loads (ArgObj (JDict [("refresh_token", JStr "R")]))
    None FileAbsent
  = Ok (Credentials JNull (JStr "R")
          (JStr "https://oauth2.googleapis.com/token") JNull JNull
          (JList [JStr "https://www.googleapis.com/auth/gmail.modify"])).
Proof.
  exact (get_credentials_object_succeeds example_loads
           (ArgObj (JDict [("refresh_token", JStr "R")])) None FileAbsent
           [("refresh_token", JStr "R")] eq_refl).
Defined.

End CredentialsExtra.

(** ** Further properties of [fetch_group_emails] and [extract_message_part] *)
Module FetchExtra.
Import Py Gmail Fetch FetchProofs Stating.

Section WithLibraries.
Variable b64decode_utf8 : string -> result string.
Variable int_of_str : string -> option Z.
Variable parse_time_iso : string -> result string.
Variable svc : service.

Local Abbreviation thread_context := (thread_context int_of_str svc).
Local Abbreviation build_record := (build_record b64decode_utf8 parse_time_iso).
Local Abbreviation process_entry :=
  (process_entry b64decode_utf8 int_of_str parse_time_iso svc).
Local Abbreviation entry_events :=
  (entry_events b64decode_utf8 int_of_str parse_time_iso svc).
Local Abbreviation process_messages :=
  (process_messages b64decode_utf8 int_of_str parse_time_iso svc).
Local Abbreviation extract := (extract_message_part b64decode_utf8).

(** X3.  Each listed message contributes at most one event (a yield or a
    warning), so a batch never produces more events than messages were
    listed. *)
Theorem process_messages_at_most_one_each (addr : string) (skip : bool)
    (refs : list message_ref) :
  (List.length (process_messages addr skip refs) <= List.length refs)%nat.
Proof.
  induction refs as [|ref refs IH]; simpl; [lia|].
  rewrite length_app. unfold Fetch.entry_events.
  destruct (process_entry addr skip ref) as [[y|]|e]; simpl; lia.
Qed.

(** X4.  With the filter on, a message of an unanswered thread that is
    from the user or is not the thread's last message is dropped without
    any trace: nothing is yielded and nothing is logged as a warning. *)
Theorem fetch_drops_non_latest_silently (addr : string) (ref : message_ref)
    (msg last : message) (last_from from_header : string) :
  thread_context ref = Ok (msg, last, last_from) ->
  str_in addr last_from = false ->
  header_value "From" (get_headers (msg_payload msg)) = Ok from_header ->
  str_in addr from_header = true \/ ref_id ref <> id last ->
  entry_events addr false ref = [].
Proof.
  intros Hctx Hlf Hfh Hor. unfold Fetch.entry_events, Fetch.process_entry.
  rewrite Hctx. simpl. rewrite Hlf. simpl. rewrite Hfh. simpl.
  destruct Hor as [Hu|Hid].
  - rewrite Hu. reflexivity.
  - apply String.eqb_neq in Hid. rewrite Hid.
    now rewrite andb_false_r.
Qed.

(** X5.  With the filter off, the outcome for a listed message depends
    only on its thread: two listed messages of the same thread (each with
    a From header) give the same result, namely the record of the thread's
    last message, so that record is yielded once per listed message. *)
Theorem fetch_unfiltered_same_thread_same_outcome (addr : string)
    (ref1 ref2 : message_ref) (msg1 msg2 : message) (from1 from2 : string) :
  messages_get svc (ref_id ref1) = Ok msg1 ->
  messages_get svc (ref_id ref2) = Ok msg2 ->
  threadId msg1 = threadId msg2 ->
  header_value "From" (get_headers (msg_payload msg1)) = Ok from1 ->
  header_value "From" (get_headers (msg_payload msg2)) = Ok from2 ->
  process_entry addr true ref1 = process_entry addr true ref2.
Proof.
  intros H1 H2 Ht Hf1 Hf2. unfold Fetch.process_entry, Fetch.thread_context.
  rewrite H1, H2. simpl. rewrite Ht.
  destruct (threads_get svc (threadId msg2)) as [th|]; simpl; [|reflexivity].
  destruct (sort_thread int_of_str (messages th)) as [sorted|]; simpl; [|reflexivity].
  destruct (last_item sorted) as [last|]; simpl; [|reflexivity].
  destruct (index_headers (msg_payload last)) as [hs|]; simpl; [|reflexivity].
  destruct (header_value "From" hs) as [lf|]; simpl; [|reflexivity].
  now rewrite Hf1, Hf2.
Qed.

(** X6.  A fetched message without a Subject header, or without a Date
    header, is never yielded as a full record when the filter is on. *)
Theorem fetch_needs_subject_and_date (addr : string) (ref : message_ref)
    (msg : message) (r : email_record) :
  messages_get svc (ref_id ref) = Ok msg ->
  find (named "Subject") (get_headers (msg_payload msg)) = None \/
  find (named "Date") (get_headers (msg_payload msg)) = None ->
  process_entry addr false ref <> Ok (Some (Email r)).
Proof.
  intros Hget Hmiss Hp.
  destruct (process_entry_email_inv _ _ _ _ _ _ _ Hp)
    as (msg' & last & lf & fh & Hctx & _ & _ & _ & _ & Hb).
  destruct (thread_context_inv _ _ _ _ _ _ Hctx) as (th & hs & Hget' & _).
  rewrite Hget in Hget'. injection Hget' as <-.
  unfold Fetch.build_record, header_value, next_where in Hb.
  destruct Hmiss as [Hs|Hd].
  - rewrite Hs in Hb. discriminate.
  - destruct (find (named "Subject") (get_headers (msg_payload msg)));
      simpl in Hb; [|discriminate].
    rewrite Hd in Hb. discriminate.
Qed.

(** X7.  In a full record the sender is the stripped value of a non-empty
    Reply-To header when the message has one, whatever its From header
    says. *)
Theorem build_record_prefers_reply_to (i t : string) (p : payload)
    (r : email_record) (h : header) :
  build_record i t p = Ok r ->
  find (named "Reply-To") (get_headers p) = Some h ->
  truthy (value h) = true ->
  from_email r = strip (value h).
Proof.
  unfold Fetch.build_record, header_value_or_empty. intros Hb Hh Ht.
  rewrite Hh, Ht in Hb.
  destruct (header_value "Subject" (get_headers p)); simpl in Hb; [|discriminate].
  destruct (header_value "Date" (get_headers p)); simpl in Hb; [|discriminate].
  destruct (parse_time_iso _); simpl in Hb; [|discriminate].
  destruct (extract p); simpl in Hb; [|discriminate].
  injection Hb as <-. reflexivity.
Qed.

(** X8.  For a payload without body data, the extracted text is the texts
    of its parts, taken in order, with the empty ones dropped and the
    others joined by newlines; if a part fails, the extraction fails with
    that part's exception. *)
Theorem extract_message_part_multipart (hs : option (list header))
    (body_data : option string) (parts : list payload) :
  truthy (match body_data with Some d => d | None => "" end) = false ->
  extract (Payload hs body_data parts)
  = (texts <- collect extract parts ;;
     Ok (join nl (filter truthy texts))).
Proof.
  intros Hd. simpl. rewrite Hd.
  assert (G : forall ps,
             (fix each (ps : list payload) : result (list string) :=
                match ps with
                | [] => Ok []
                | part :: ps' =>
                    content <- extract part ;;
                    rest <- each ps' ;;
                    Ok (if truthy content then content :: rest else rest)
                end) ps
             = (texts <- collect extract ps ;; Ok (filter truthy texts))).
  { induction ps as [|q ps IH]; [reflexivity|].
    rewrite IH. simpl.
    destruct (extract q) as [c|]; simpl; [|reflexivity].
    destruct (collect extract ps) as [ts|]; simpl; [|reflexivity].
    destruct (truthy c); reflexivity. }
  destruct parts as [|q ps]; [reflexivity|].
  rewrite G. cbn [collect bind].
  destruct (extract q) as [c|]; cbn [bind]; [|reflexivity].
  destruct (collect extract ps) as [ts|]; reflexivity.
Qed.

End WithLibraries.

Import Examples.

Lemma fetch_drops_non_latest_silently_witness :
  Fetch.entry_events example_decode example_int example_parse_time
    example_service "me@x.org" false (MessageRef "m4" "t4") = [].
Proof.
  apply (fetch_drops_non_latest_silently example_decode example_int
           example_parse_time example_service "me@x.org" (MessageRef "m4" "t4")
           m4 m5 "carol@x.org" "carol@x.org" eq_refl eq_refl eq_refl).
  right. discriminate.
Defined.

Lemma fetch_unfiltered_same_thread_same_outcome_witness :
  Fetch.process_entry example_decode example_int example_parse_time
    example_service "me@x.org" true (MessageRef "m4" "t4")
  = Fetch.process_entry example_decode example_int example_parse_time
      example_service "me@x.org" true (MessageRef "m5" "t4").
Proof.
  exact (fetch_unfiltered_same_thread_same_outcome example_decode example_int
           example_parse_time example_service "me@x.org"
           (MessageRef "m4" "t4") (MessageRef "m5" "t4") m4 m5
           "carol@x.org" "carol@x.org" eq_refl eq_refl eq_refl eq_refl eq_refl).
Defined.

Lemma fetch_needs_subject_and_date_witness :
  Fetch.process_entry example_decode example_int example_parse_time
    untitled_service "me@x.org" false (MessageRef "m6" "t6")
  <> Ok (Some (Email m1_record)).
Proof.
  exact (fetch_needs_subject_and_date example_decode example_int
           example_parse_time untitled_service "me@x.org"
           (MessageRef "m6" "t6") m6 m1_record eq_refl (or_introl eq_refl)).
Defined.

Lemma build_record_prefers_reply_to_witness :
  from_email (EmailRecord "erin@x.org" "" "Digest" "digest" "i" "t"
                "Tue, 2 Jan 2024")
  = strip (value (Header "Reply-To" " erin@x.org ")).
Proof.
  exact (build_record_prefers_reply_to example_decode example_parse_time
           "i" "t" list_mail _ (Header "Reply-To" " erin@x.org ")
           eq_refl eq_refl eq_refl).
Defined.

Lemma extract_message_part_multipart_witness :
  Fetch.extract_message_part example_decode multipart
  = (texts <- collect (Fetch.extract_message_part example_decode)
                [leaf "cGxhaW4="; Payload None None []; leaf "aHRtbA=="] ;;
     Ok (join nl (filter truthy texts))).
Proof.
  exact (extract_message_part_multipart example_decode None None
           [leaf "cGxhaW4="; Payload None None []; leaf "aHRtbA=="] eq_refl).
Defined.

Example extract_message_part_multipart_value :
  Fetch.extract_message_part example_decode multipart
  = Ok ("plain" ++ nl ++ "html").
Proof. reflexivity. Qed.

End FetchExtra.

(** ** [send_email], [send_calendar_invite], [mark_as_read] and the tools *)
Module ToolsExtra.
Import Py Gmail Tools PyFacts.

Lemma append_not_self (a b : string) : b <> "" -> a ++ b <> a.
Proof.
  intros Hb. induction a as [|c a IH]; simpl.
  - exact Hb.
  - intros [= H]. now apply IH.
Qed.

Section WithServices.
Variable b64decode_utf8 : string -> result string.
Variable int_of_str : string -> option Z.
Variable parse_time_iso : string -> result string.
Variable json_loads : string -> option Credentials.json.
Variable svc : service.
Variable events_list : Calendar.calendar_service.
Variable events_insert : insert_service.
Variable messages_modify : modify_service.
Variable env_token : option string.
Variable file : Credentials.token_file.

Local Abbreviation send_email := (Send.send_email json_loads svc).
Local Abbreviation send_email_tool :=
  (send_email_tool json_loads svc env_token file).
Local Abbreviation send_calendar_invite :=
  (send_calendar_invite json_loads events_insert env_token file).
Local Abbreviation schedule_meeting_tool :=
  (schedule_meeting_tool json_loads events_insert env_token file).
Local Abbreviation mark_as_read :=
  (mark_as_read json_loads messages_modify env_token file).
Local Abbreviation fetch_emails_tool :=
  (fetch_emails_tool b64decode_utf8 int_of_str parse_time_iso json_loads svc
     env_token file).
Local Abbreviation check_calendar_tool :=
  (check_calendar_tool int_of_str json_loads events_list env_token file).

Lemma send_email_never_false
    (email_id response_text email_address : string)
    (addn_recipients : option (list string))
    (gmail_token : Credentials.token_arg) (env : option string)
    (f : Credentials.token_file) :
  Send.returned (send_email email_id response_text email_address
                   addn_recipients gmail_token env f) <> Ok false.
Proof.
  unfold Send.send_email.
  destruct (Credentials.get_credentials json_loads gmail_token env f); simpl;
    [|discriminate].
  destruct (Send.reply_context svc email_id) as [[[subject from_] thread_id]|e];
    simpl; [|discriminate].
  destruct (messages_send svc _); simpl; discriminate.
Qed.

Lemma no_credentials (env : option string) (f : Credentials.token_file) :
  Credentials.env_offer json_loads env = None ->
  Credentials.file_offer json_loads f = None ->
  Credentials.get_credentials json_loads Credentials.ArgNone env f
  = Raise (ValueError Credentials.no_credentials_message).
Proof.
  intros He Hf. rewrite CredentialsProofs.get_credentials_resolution. simpl.
  now rewrite He, Hf.
Qed.

(** X9.  A call of [send_email] hands at most one message to the
    provider.  It hands none on the two paths that raise before the send
    call: when the credentials cannot be loaded (their error is raised)
    and when the original message cannot be read (a [ValueError] is
    raised).  It never returns [False]: it returns [True] only after the
    provider accepted the one message it submitted, and whenever nothing
    was submitted it has raised. *)
Theorem send_email_submits_at_most_once
    (email_id response_text email_address : string)
    (addn_recipients : option (list string))
    (gmail_token : Credentials.token_arg) (env : option string)
    (f : Credentials.token_file) :
  let out := send_email email_id response_text email_address addn_recipients
               gmail_token env f in
  (List.length (Send.submitted out) <= 1)%nat /\
  Send.returned out <> Ok false /\
  (Send.returned out = Ok true ->
   exists body sent,
     Send.submitted out = [body] /\ messages_send svc body = Ok sent) /\
  (forall e,
     Credentials.get_credentials json_loads gmail_token env f = Raise e ->
     Send.submitted out = [] /\ Send.returned out = Raise e) /\
  (forall creds e,
     Credentials.get_credentials json_loads gmail_token env f = Ok creds ->
     Send.reply_context svc email_id = Raise e ->
     Send.submitted out = [] /\
     exists msg, Send.returned out = Raise (ValueError msg)) /\
  (Send.submitted out = [] -> exists e, Send.returned out = Raise e).
Proof.
  unfold Send.send_email.
  destruct (Credentials.get_credentials json_loads gmail_token env f) as [c|e0];
    simpl.
  - destruct (Send.reply_context svc email_id) as [[[subject from_] thread_id]|e1];
      simpl.
    + destruct (messages_send svc _) as [sent|e2] eqn:Hs; simpl.
      * split; [lia|]. split; [discriminate|]. split; [|split; [|split]].
        -- intros _. eexists. exists sent. split; [reflexivity|exact Hs].
        -- intros e [=].
        -- intros creds e _ [=].
        -- intros [=].
      * split; [lia|]. split; [discriminate|]. split; [|split; [|split]].
        -- intros [=].
        -- intros e [=].
        -- intros creds e _ [=].
        -- intros [=].
    + split; [lia|]. split; [discriminate|]. split; [|split; [|split]].
      * intros [=].
      * intros e [=].
      * intros creds e _ _. split; [reflexivity|]. eexists; reflexivity.
      * intros _. eexists; reflexivity.
  - split; [lia|]. split; [discriminate|]. split; [|split; [|split]].
    + intros [=].
    + intros e [= <-]. now split.
    + intros creds e [=].
    + intros _. eexists; reflexivity.
Qed.

(** X10.  [send_email_tool] answers with the success text exactly when
    [send_email] returned [True], and otherwise with "Failed to send
    email: " followed by the exception text; the bare "Failed to send
    email" of its [else] branch is never returned. *)
Theorem send_email_tool_outcomes
    (email_id response_text email_address : string)
    (additional_recipients : option (list string)) :
  let out := send_email email_id response_text email_address
               additional_recipients Credentials.ArgNone env_token file in
  let answer := send_email_tool email_id response_text email_address
                  additional_recipients in
  ((Send.returned out = Ok true /\
    answer = "Email reply sent successfully to message ID: " ++ email_id) \/
   (exists e, Send.returned out = Raise e /\
              answer = "Failed to send email: " ++ str_exn e)) /\
  answer <> "Failed to send email".
Proof.
  intros out answer. subst answer. unfold Tools.send_email_tool. fold out.
  pose proof (send_email_never_false email_id response_text email_address
                additional_recipients Credentials.ArgNone env_token file) as Hnf.
  fold out in Hnf.
  destruct (Send.returned out) as [[|]|e].
  - split; [left; now split|]. discriminate.
  - now contradiction Hnf.
  - split; [right; exists e; now split|].
    change ("Failed to send email: " ++ str_exn e)
      with ("Failed to send email" ++ (": " ++ str_exn e)).
    apply append_not_self. discriminate.
Qed.


(** X12.  [mark_as_read] touches at most one message, the one it was
    given, and the only change it asks for is the removal of the UNREAD
    label; it makes no request when the credentials cannot be loaded and
    returns [True] only when the provider accepted the request. *)
Theorem mark_as_read_only_removes_unread (message_id : string)
    (gmail_token : Credentials.token_arg) :
  let out := mark_as_read message_id gmail_token in
  (forall request, In request (modified out) ->
     modified out = [request] /\ request = (message_id, ["UNREAD"])) /\
  (forall e,
     Credentials.get_credentials json_loads gmail_token env_token file = Raise e ->
     modified out = [] /\ modify_returned out = Raise e) /\
  (modify_returned out = Ok true ->
   messages_modify message_id ["UNREAD"] = Ok tt) /\
  modify_returned out <> Ok false.
Proof.
  intros out. subst out. unfold Tools.mark_as_read.
  destruct (Credentials.get_credentials json_loads gmail_token env_token file)
    as [c|e]; simpl.
  - destruct (messages_modify message_id ["UNREAD"]) as [[]|e] eqn:Hm; simpl.
    + split; [|split; [|split]].
      * intros request [<-|[]]. now split.
      * intros e0 [=].
      * intros _. reflexivity.
      * discriminate.
    + split; [|split; [|split]].
      * intros request [<-|[]]. now split.
      * intros e0 [=].
      * intros [=].
      * discriminate.
  - split; [|split; [|split]].
    + intros request [].
    + intros e0 [= <-]. now split.
    + intros [=].
    + discriminate.
Qed.

Lemma yields_app (l1 l2 : list Fetch.event) :
  yields (l1 ++ l2) = (yields l1 ++ yields l2)%list.
Proof.
  induction l1 as [|[y|w] l1 IH]; simpl; [reflexivity| |exact IH].
  now rewrite IH.
Qed.

Lemma yields_nil_when_nothing_yielded (addr : string) (refs : list message_ref) :
  (forall ref y, In ref refs ->
     Fetch.process_entry b64decode_utf8 int_of_str parse_time_iso svc
       addr false ref <> Ok (Some y)) ->
  yields (Fetch.process_messages b64decode_utf8 int_of_str parse_time_iso svc
            addr false refs) = [].
Proof.
  induction refs as [|ref refs IH]; intros H; simpl; [reflexivity|].
  rewrite yields_app, IH by (intros r y Hr; apply H; now right).
  unfold Fetch.entry_events.
  destruct (Fetch.process_entry _ _ _ _ addr false ref) as [[y|]|e] eqn:E;
    try reflexivity.
  exfalso. apply (H ref y); [now left|exact E].
Qed.

(** X13.  When every listed message is dropped by the filter or fails to
    process, [fetch_emails_tool] answers "No new emails found.": a batch in
    which all messages failed looks like an empty inbox. *)
Theorem fetch_emails_tool_hides_failures (fuel : nat)
    (email_address after : string) (include_read : bool)
    (creds : Credentials.credentials) (refs : list message_ref) :
  Credentials.get_credentials json_loads Credentials.ArgNone env_token file
  = Ok creds ->
  Fetch.list_messages svc fuel
    (Fetch.search_query email_address after include_read) None []
  = Some (Ok refs) ->
  (forall ref y, In ref refs ->
     Fetch.process_entry b64decode_utf8 int_of_str parse_time_iso svc
       email_address false ref <> Ok (Some y)) ->
  fetch_emails_tool fuel email_address after include_read
  = Some "No new emails found.".
Proof.
  intros Hc Hl Hn. unfold Tools.fetch_emails_tool, Fetch.fetch_group_emails.
  rewrite Hc, Hl. now rewrite yields_nil_when_nothing_yielded.
Qed.


End WithServices.

Import Examples.

Lemma fetch_emails_tool_hides_failures_witness :
  Tools.fetch_emails_tool example_decode example_int example_parse_time
    Credentials.example_loads down_service (Some (Credentials.token_doc "E"))
    Credentials.FileAbsent 5 "me@x.org" "1700000000" false
  = Some "No new emails found.".
Proof.
  eapply (fetch_emails_tool_hides_failures example_decode example_int
            example_parse_time Credentials.example_loads down_service
            (Some (Credentials.token_doc "E")) Credentials.FileAbsent
            5 "me@x.org" "1700000000" false).
  - reflexivity.
  - reflexivity.
  - intros ref y _. discriminate.
Defined.


(** The tool on the example mailbox: the answered thread is numbered and
    counted like a full record. *)
Example fetch_emails_tool_summary :
  Tools.fetch_emails_tool example_decode example_int example_parse_time
    Credentials.example_loads example_service (Some (Credentials.token_doc "E"))
    Credentials.FileAbsent 5 "me@x.org" "1700000000" false
  = Some ("Found 2 emails:" ++ nl ++ nl ++
          "1. From: alice@x.org" ++ nl ++
          "   To: me@x.org" ++ nl ++
          "   Subject: Hello" ++ nl ++
          "   Time: Mon, 1 Jan 2024" ++ nl ++
          "   ID: m1" ++ nl ++
          "   Thread: t1" ++ nl ++
          "   Content: hello..." ++ nl ++ nl ++
          "2. Already responded (Thread: t2)" ++ nl ++ nl).
Proof. reflexivity. Qed.

End ToolsExtra.

(** ** Further properties of [get_calendar_events] *)
Module CalendarExtra.
Import Py Datetime Calendar DatetimeFacts CalendarProofs Stating PyFacts.
Local Arguments tuple_lt : simpl never.
Local Arguments fields : simpl never.

Lemma insert_slot_naive (x : datetime * datetime) (l : list (datetime * datetime)) :
  naive (fst x) -> Forall (fun p => naive (fst p)) l -> starts_sorted l ->
  exists l',
    insert_slot x l = Ok l' /\
    (forall z, In z l' <-> z = x \/ In z l) /\
    starts_sorted l'.
Proof.
  intros Hx Hl Hs. induction Hs as [|y l Hs IH Hall]; simpl.
  - exists [x]. split; [reflexivity|]. split.
    + intros z. simpl. intuition congruence.
    + constructor; constructor.
  - inversion Hl as [|? ? Hy Hl']; subst.
    rewrite (lt_naive _ _ Hx Hy). simpl.
    destruct (tuple_lt (fields (fst x)) (fields (fst y))) eqn:E.
    + exists (x :: y :: l). split; [reflexivity|]. split.
      * intros z. simpl. intuition congruence.
      * constructor; [now constructor|].
        constructor; [now apply naive_lt_le|].
        eapply Forall_impl; [|exact Hall]. simpl. intros z Hz.
        eapply naive_le_trans; [apply naive_lt_le; exact E|exact Hz].
    + destruct (IH Hl') as (l' & Hi & Hin & Hs').
      rewrite Hi. simpl. exists (y :: l'). split; [reflexivity|]. split.
      * intros z. simpl. rewrite Hin. intuition congruence.
      * constructor; [exact Hs'|].
        apply Forall_forall. intros z Hz. apply Hin in Hz as [->|Hz].
        -- exact E.
        -- rewrite Forall_forall in Hall. now apply Hall.
Qed.

Lemma sort_slots_from_naive (l sorted : list (datetime * datetime)) :
  Forall (fun p => naive (fst p)) l ->
  Forall (fun p => naive (fst p)) sorted -> starts_sorted sorted ->
  exists res,
    sort_slots_from sorted l = Ok res /\
    (forall z, In z res <-> In z sorted \/ In z l) /\
    starts_sorted res.
Proof.
  intros Hl. revert sorted. induction Hl as [|x l Hx Hl IH]; intros sorted Hn Hs.
  - exists sorted. simpl. split; [reflexivity|]. split; [|exact Hs].
    intros z. tauto.
  - simpl. destruct (insert_slot_naive x sorted Hx Hn Hs) as (s' & Hi & Hin & Hs').
    rewrite Hi. simpl.
    assert (Hn' : Forall (fun p => naive (fst p)) s').
    { apply Forall_forall. intros z Hz. apply Hin in Hz as [->|Hz]; [exact Hx|].
      rewrite Forall_forall in Hn. now apply Hn. }
    destruct (IH s' Hn' Hs') as (res & Hr & Hrin & Hrs).
    exists res. split; [exact Hr|]. split; [|exact Hrs].
    intros z. rewrite Hrin, Hin. intuition congruence.
Qed.

Lemma sort_slots_naive (l : list (datetime * datetime)) :
  Forall well_formed l ->
  exists res,
    sort_slots l = Ok res /\
    (forall y, In y res <-> In y l) /\
    starts_sorted res /\ Forall well_formed res.
Proof.
  intros Hw.
  assert (Hn : Forall (fun p => naive (fst p)) l)
    by (eapply Forall_impl; [|exact Hw]; intros p Hp; apply Hp).
  destruct (sort_slots_from_naive l [] Hn (Forall_nil _))
    as (res & Hr & Hin & Hs); [constructor|].
  exists res. split; [exact Hr|]. split; [|split; [exact Hs|]].
  - intros y. rewrite Hin. simpl. tauto.
  - apply Forall_forall. intros y Hy. apply Hin in Hy as [[]|Hy].
    rewrite Forall_forall in Hw. now apply Hw.
Qed.

Lemma chain_from_starts (lo : datetime) (slots : list (datetime * datetime)) :
  chain_from lo slots -> Forall (fun s => naive_le lo (fst s)) slots.
Proof.
  revert lo. induction slots as [|[a b] rest IH]; simpl; intros lo Hc.
  - constructor.
  - destruct Hc as (Ha & Hab & Hrest). constructor; [exact Ha|].
    eapply Forall_impl; [|exact (IH b Hrest)]. simpl. intros s Hs.
    eapply naive_le_trans; [exact Ha|].
    eapply naive_le_trans; [apply naive_lt_le; exact Hab|exact Hs].
Qed.

(** The walk over sorted, well-formed intervals: the facts of
    [walk_busy_chain], and also that every interval ends by the final
    [current], that every gap is apart from every interval, and that gaps
    end no later than any bound on the intervals' starts. *)
Lemma walk_busy_sound (busy : list (datetime * datetime)) :
  Forall well_formed busy -> starts_sorted busy ->
  forall current, naive current ->
  exists slots final,
    walk_busy current busy = Ok (slots, final) /\
    naive final /\ naive_le current final /\
    chain_from current slots /\
    Forall (fun s => naive_le (snd s) final) slots /\
    Forall (fun iv => naive_le (snd iv) final) busy /\
    (forall s iv, In s slots -> In iv busy -> apart s iv) /\
    (forall w, Forall (fun iv => naive_le (fst iv) w) busy ->
               Forall (fun s => naive_le (snd s) w) slots).
Proof.
  intros Hw Hs. induction Hs as [|[start end_] busy Hs IH Hall];
    intros current Hn.
  - exists [], current. simpl.
    repeat split; auto using naive_le_refl. intros s iv [].
  - inversion Hw as [|? ? (Hns & Hne & Hse) Hw']; subst. simpl in Hns, Hne, Hse.
    simpl. rewrite (lt_naive _ _ Hn Hns). simpl.
    unfold Datetime.max. rewrite (lt_naive _ _ Hn Hne). simpl.
    set (current' := if tuple_lt (fields current) (fields end_) then end_ else current).
    assert (Hn' : naive current')
      by (unfold current'; destruct (tuple_lt _ _); assumption).
    assert (Hcc : naive_le current current').
    { unfold current'. destruct (tuple_lt (fields current) (fields end_)) eqn:E.
      - now apply naive_lt_le.
      - apply naive_le_refl. }
    assert (Hec : naive_le end_ current').
    { unfold current'. destruct (tuple_lt (fields current) (fields end_)) eqn:E.
      - apply naive_le_refl.
      - exact E. }
    destruct (IH Hw' current' Hn')
      as (slots & final & Hwalk & Hnf & Hcf & Hch & Hends & Hbusy & Hap & Hup).
    rewrite Hwalk. simpl.
    assert (Hstart_cur : naive_le start current')
      by (eapply naive_le_trans; eassumption).
    assert (Hrest_apart : forall s, In s slots -> apart s (start, end_)).
    { intros s Hin. right. simpl.
      pose proof (chain_from_starts _ _ Hch) as Hst.
      rewrite Forall_forall in Hst.
      eapply naive_le_trans; [exact Hec|]. now apply Hst. }
    assert (Hbusy' : Forall (fun iv => naive_le (snd iv) final)
                       ((start, end_) :: busy)).
    { constructor; [|exact Hbusy]. simpl. eapply naive_le_trans; eassumption. }
    destruct (tuple_lt (fields current) (fields start)) eqn:Hfree.
    + exists ((current, start) :: slots), final.
      split; [reflexivity|]. split; [exact Hnf|].
      split; [eapply naive_le_trans; eassumption|].
      split; [|split; [|split; [exact Hbusy'|split]]].
      * simpl. repeat split; [apply naive_le_refl|exact Hfree|].
        eapply chain_from_weaken; [exact Hstart_cur|exact Hch].
      * constructor; [|exact Hends]. simpl. eapply naive_le_trans; eassumption.
      * intros s iv [<-|Hin] [<-|Hiv].
        -- left. simpl. apply naive_le_refl.
        -- left. simpl. rewrite Forall_forall in Hall. exact (Hall _ Hiv).
        -- now apply Hrest_apart.
        -- now apply Hap.
      * intros w Hbound. inversion Hbound as [|? ? Hsw Hbound']; subst.
        constructor; [exact Hsw|]. now apply Hup.
    + exists slots, final.
      split; [reflexivity|]. split; [exact Hnf|].
      split; [eapply naive_le_trans; eassumption|].
      split; [|split; [exact Hends|split; [exact Hbusy'|split]]].
      * eapply chain_from_weaken; eassumption.
      * intros s iv Hin [<-|Hiv]; [now apply Hrest_apart|now apply Hap].
      * intros w Hbound. inversion Hbound; subst. now apply Hup.
Qed.

Lemma available_slots_sound (work_start work_end : datetime)
    (busy : list (datetime * datetime)) :
  naive work_start -> naive work_end ->
  Forall well_formed busy -> starts_sorted busy ->
  exists slots,
    available_slots work_start work_end busy = Ok slots /\
    chain_from work_start slots /\
    (forall s iv, In s slots -> In iv busy -> apart s iv) /\
    (Forall (fun iv => naive_le (fst iv) work_end) busy ->
     Forall (fun s => naive_le (snd s) work_end) slots).
Proof.
  intros Hs He Hw Hsorted.
  destruct (walk_busy_sound busy Hw Hsorted work_start Hs)
    as (slots & final & Hwalk & Hnf & Hcf & Hch & Hends & Hbusy & Hap & Hup).
  unfold available_slots. rewrite Hwalk. simpl.
  rewrite (lt_naive _ _ Hnf He). simpl.
  destruct (tuple_lt (fields final) (fields work_end)) eqn:E.
  - eexists. split; [reflexivity|]. split; [|split].
    + now apply chain_from_snoc.
    + intros s iv Hin Hiv. apply in_app_or in Hin as [Hin|[<-|[]]].
      * now apply Hap.
      * right. simpl. rewrite Forall_forall in Hbusy. now apply Hbusy.
    + intros Hbound. apply Forall_app. split; [now apply Hup|].
      constructor; [apply naive_le_refl|constructor].
  - eexists. split; [reflexivity|]. split; [exact Hch|].
    split; [exact Hap|apply Hup].
Qed.

Section WithLibraries.
Variable int_of_str : string -> option Z.
Variable json_loads : string -> option Credentials.json.
Variable events_list : calendar_service.

Lemma working_hour_naive (year month day : string) (hh : Z) (dt : datetime) :
  working_hour int_of_str year month day hh = Ok dt -> naive dt.
Proof.
  unfold working_hour, to_int, make_datetime.
  destruct (int_of_str year) as [y|]; simpl; [|discriminate].
  destruct (int_of_str month) as [m|]; simpl; [|discriminate].
  destruct (int_of_str day) as [d|]; simpl; [|discriminate].
  repeat (match goal with |- context [if ?c then _ else _] => destruct c end;
          try discriminate).
  now intros [= <-].
Qed.

(** Everything [day_slots] guarantees on well-formed naive intervals. *)
Lemma day_slots_sound (year month day : string) (busy : list busy_slot)
    (work_start work_end : datetime) :
  Forall well_formed (timed_slots busy) ->
  working_hour int_of_str year month day 9 = Ok work_start ->
  working_hour int_of_str year month day 17 = Ok work_end ->
  exists slots,
    day_slots int_of_str year month day busy = Ok slots /\
    chain_from work_start slots /\
    (forall s iv, In s slots -> In iv (timed_slots busy) -> apart s iv) /\
    (Forall (fun iv => naive_le (fst iv) work_end) (timed_slots busy) ->
     Forall (fun s => naive_le (snd s) work_end) slots).
Proof.
  intros Hw H9 H17. unfold day_slots.
  destruct (sort_slots_naive _ Hw) as (sorted & Hsort & Hin & Hs & Hw').
  rewrite Hsort. simpl. rewrite H9. simpl. rewrite H17. simpl.
  destruct (available_slots_sound work_start work_end sorted
              (working_hour_naive _ _ _ _ _ H9) (working_hour_naive _ _ _ _ _ H17)
              Hw' Hs) as (slots & Ha & Hch & Hap & Hup).
  exists slots. split; [exact Ha|]. split; [exact Hch|]. split.
  - intros s iv Hs' Hiv. apply Hap; [exact Hs'|]. now apply Hin.
  - intros Hbound. apply Hup. apply Forall_forall. intros iv Hiv.
    rewrite Forall_forall in Hbound. apply Hbound. now apply Hin.
Qed.

(** X15.  For timed events with offset-free times that do not end before
    they start, the free slots of a day are computed without error and
    form a chain from [work_start]: each slot is non-empty, none starts
    before 9:00, and each starts no earlier than the previous one ends. *)
Theorem day_slots_ascending (year month day : string) (busy : list busy_slot)
    (work_start work_end : datetime) :
  Forall well_formed (timed_slots busy) ->
  working_hour int_of_str year month day 9 = Ok work_start ->
  working_hour int_of_str year month day 17 = Ok work_end ->
  exists slots,
    day_slots int_of_str year month day busy = Ok slots /\
    chain_from work_start slots.
Proof.
  intros Hw H9 H17.
  destruct (day_slots_sound _ _ _ _ _ _ Hw H9 H17) as (slots & Hd & Hch & _).
  now exists slots.
Qed.

(** X16.  Under the same conditions no free slot overlaps a busy interval:
    for every reported slot and every timed event, one of the two ends no
    later than the other starts. *)
Theorem day_slots_avoid_busy (year month day : string) (busy : list busy_slot)
    (work_start work_end : datetime) :
  Forall well_formed (timed_slots busy) ->
  working_hour int_of_str year month day 9 = Ok work_start ->
  working_hour int_of_str year month day 17 = Ok work_end ->
  exists slots,
    day_slots int_of_str year month day busy = Ok slots /\
    forall s iv, In s slots -> In iv (timed_slots busy) -> apart s iv.
Proof.
  intros Hw H9 H17.
  destruct (day_slots_sound _ _ _ _ _ _ Hw H9 H17) as (slots & Hd & _ & Hap & _).
  now exists slots.
Qed.

(** X17.  If moreover every timed event starts no later than 17:00, every
    free slot ends no later than 17:00, so the slots lie within the
    working hours. *)
Theorem day_slots_within_hours (year month day : string) (busy : list busy_slot)
    (work_start work_end : datetime) :
  Forall well_formed (timed_slots busy) ->
  working_hour int_of_str year month day 9 = Ok work_start ->
  working_hour int_of_str year month day 17 = Ok work_end ->
  Forall (fun iv => naive_le (fst iv) work_end) (timed_slots busy) ->
  exists slots,
    day_slots int_of_str year month day busy = Ok slots /\
    Forall (fun s => naive_le work_start (fst s) /\ naive_le (snd s) work_end)
      slots.
Proof.
  intros Hw H9 H17 Hbound.
  destruct (day_slots_sound _ _ _ _ _ _ Hw H9 H17) as (slots & Hd & Hch & _ & Hup).
  exists slots. split; [exact Hd|].
  pose proof (chain_from_starts _ _ Hch) as Hlo. specialize (Hup Hbound).
  rewrite Forall_forall in *. intros s Hs. split; [now apply Hlo|now apply Hup].
Qed.

Lemma describe_events_slots (events : list cal_event) (lines : string)
    (slots : list busy_slot) :
  describe_events events = Ok (lines, slots) -> slots = map slot_of events.
Proof.
  revert lines slots. induction events as [|ev events IH]; simpl; intros lines slots.
  - now intros [= <- <-].
  - unfold describe_event, slot_of, index_summary.
    destruct (ev_start ev); destruct (summary ev); simpl; try discriminate;
      destruct (describe_events events) as [[ls sl]|]; simpl; try discriminate;
      intros [= <- <-]; now rewrite (IH _ _ eq_refl).
Qed.

Lemma describe_events_titled (events : list cal_event) :
  Forall (fun ev => summary ev <> None) events ->
  exists lines, describe_events events = Ok (lines, map slot_of events).
Proof.
  induction 1 as [|ev events Hev Hall (lines & IH)]; simpl.
  - now exists "".
  - unfold describe_event, slot_of, index_summary. rewrite IH.
    destruct (summary ev) as [title|]; [|now contradiction Hev].
    destruct (ev_start ev); simpl; eexists; reflexivity.
Qed.

Lemma describe_events_untitled (events : list cal_event) :
  Exists (fun ev => summary ev = None) events ->
  describe_events events = Raise (KeyError "'summary'").
Proof.
  induction events as [|ev events IH]; intros H; [inversion H|]. simpl.
  unfold describe_event, index_summary.
  destruct (summary ev) as [title|] eqn:Hs.
  - inversion H as [? ? Hev|? ? Hrest]; subst; [congruence|].
    rewrite (IH Hrest). destruct (ev_start ev); reflexivity.
  - destruct (ev_start ev); reflexivity.
Qed.

Lemma insert_slot_In (x : datetime * datetime) (l l' : list (datetime * datetime)) :
  insert_slot x l = Ok l' -> forall z, In z l' <-> z = x \/ In z l.
Proof.
  revert l'. induction l as [|y l IH]; simpl; intros l'.
  - intros [= <-] z. simpl. intuition congruence.
  - destruct (lt (fst x) (fst y)) as [[|]|]; simpl; try discriminate.
    + intros [= <-] z. simpl. intuition congruence.
    + destruct (insert_slot x l) as [rest|]; simpl; [|discriminate].
      intros [= <-] z. simpl. rewrite (IH rest eq_refl). intuition congruence.
Qed.

Lemma sort_slots_from_In (l sorted res : list (datetime * datetime)) :
  sort_slots_from sorted l = Ok res ->
  forall z, In z res <-> In z sorted \/ In z l.
Proof.
  revert sorted. induction l as [|x l IH]; simpl; intros sorted.
  - intros [= <-] z. tauto.
  - destruct (insert_slot x sorted) as [s'|] eqn:Hi; simpl; [|discriminate].
    intros Hr z. rewrite (IH _ Hr), (insert_slot_In _ _ _ Hi). intuition congruence.
Qed.

(** The walk raises as soon as it meets a time with an offset. *)
Lemma walk_busy_raises_on_offset (busy : list (datetime * datetime)) :
  Exists (fun iv => tzinfo (fst iv) <> None \/ tzinfo (snd iv) <> None) busy ->
  forall current, naive current -> exists e, walk_busy current busy = Raise e.
Proof.
  induction busy as [|[start end_] busy IH]; intros H current Hn; [inversion H|].
  simpl. unfold lt at 1. rewrite Hn.
  destruct (tzinfo start) as [o|] eqn:Hs; [eexists; reflexivity|]. simpl.
  unfold Datetime.max, lt at 1. rewrite Hn.
  destruct (tzinfo end_) as [o|] eqn:He; [eexists; reflexivity|]. simpl.
  inversion H as [? ? [Hx|Hx]|? ? Hrest]; subst; simpl in *; try congruence.
  destruct (IH Hrest
              (if tuple_lt (fields current) (fields end_) then end_ else current))
    as (e & He').
  - destruct (tuple_lt _ _); assumption.
  - rewrite He'. eexists; reflexivity.
Qed.

(** X18.  On a day that has no all-day event, one timed event whose start
    or end carries a UTC offset is enough for the day's report to raise:
    no availability is computed for such a day. *)
Theorem date_section_raises_on_offset (date_str day month year : string)
    (events : list cal_event) (ev : cal_event) :
  unpack_date date_str = Ok (day, month, year) ->
  events_list (year ++ "-" ++ month ++ "-" ++ day ++ "T00:00:00Z")
              (year ++ "-" ++ month ++ "-" ++ day ++ "T23:59:59Z")
  = Ok (Some events) ->
  Forall (fun ev => is_all_day_event ev = false) events ->
  In ev events -> has_offset ev ->
  exists e, date_section int_of_str events_list date_str = Raise e.
Proof.
  intros Hu Hev Hnone Hin Hoff. unfold date_section.
  rewrite Hu. cbn [bind]. rewrite Hev. cbn [bind].
  destruct events as [|ev0 events0]; [destruct Hin|].
  set (events := ev0 :: events0) in *.
  destruct (describe_events events) as [[lines slots]|e] eqn:Hd;
    [|eexists; reflexivity].
  cbn [bind]. apply describe_events_slots in Hd. subst slots.
  unfold availability.
  assert (Hnot : existsb is_all_day (map slot_of events) = false).
  { clearbody events. clear -Hnone. induction Hnone as [|e l He Hl IH]; simpl; [reflexivity|].
    rewrite IH. unfold slot_of, is_all_day_event in *.
    destruct (ev_start e); [reflexivity|discriminate]. }
  rewrite Hnot. unfold day_slots.
  assert (Hex : Exists (fun iv => tzinfo (fst iv) <> None \/ tzinfo (snd iv) <> None)
                  (timed_slots (map slot_of events))).
  { apply Exists_exists. unfold has_offset in Hoff.
    destruct (ev_start ev) as [start_dt|] eqn:Hs; [|destruct Hoff].
    exists (start_dt, as_datetime (ev_end ev)). split; [|exact Hoff].
    unfold timed_slots. apply in_flat_map. exists (slot_of ev). split.
    - now apply in_map.
    - unfold slot_of. rewrite Hs. now left. }
  destruct (sort_slots (timed_slots (map slot_of events))) as [sorted|e] eqn:Hsort;
    [|eexists; reflexivity].
  cbn [bind].
  destruct (working_hour int_of_str year month day 9) as [ws|e] eqn:H9;
    [|eexists; reflexivity].
  cbn [bind].
  destruct (working_hour int_of_str year month day 17) as [we|e] eqn:H17;
    [|eexists; reflexivity].
  cbn [bind]. unfold available_slots.
  assert (Hex' : Exists (fun iv => tzinfo (fst iv) <> None \/ tzinfo (snd iv) <> None)
                   sorted).
  { apply Exists_exists. apply Exists_exists in Hex as (iv & Hiv & Hp).
    exists iv. split; [|exact Hp].
    apply (sort_slots_from_In _ _ _ Hsort). now right. }
  destruct (walk_busy_raises_on_offset sorted Hex' ws (working_hour_naive _ _ _ _ _ H9))
    as (e & He).
  rewrite He. eexists; reflexivity.
Qed.

(** X19.  When a day has an all-day event (and every event has a title),
    the day is reported as "Available: None (all-day events)" after the
    event lines; the timed events of that day are listed but their times
    are never compared, so offsets in them do no harm. *)
Theorem date_section_all_day (date_str day month year : string)
    (events : list cal_event) :
  unpack_date date_str = Ok (day, month, year) ->
  events_list (year ++ "-" ++ month ++ "-" ++ day ++ "T00:00:00Z")
              (year ++ "-" ++ month ++ "-" ++ day ++ "T23:59:59Z")
  = Ok (Some events) ->
  Forall (fun ev => summary ev <> None) events ->
  existsb is_all_day_event events = true ->
  exists lines,
    describe_events events = Ok (lines, map slot_of events) /\
    date_section int_of_str events_list date_str
    = Ok (("Events for " ++ date_str ++ ":" ++ nl) ++ lines
            ++ "  Available: None (all-day events)" ++ nl ++ nl).
Proof.
  intros Hu Hev Ht Hall.
  destruct (describe_events_titled events Ht) as (lines & Hd).
  exists lines. split; [exact Hd|].
  unfold date_section. rewrite Hu. cbn [bind]. rewrite Hev. cbn [bind].
  destruct events as [|ev0 events0]; [discriminate|].
  rewrite Hd. cbn [bind]. unfold availability.
  assert (Hsl : existsb is_all_day (map slot_of (ev0 :: events0)) = true).
  { rewrite existsb_exists in *. destruct Hall as (ev & Hin & Hev').
    exists (slot_of ev). split; [now apply in_map|].
    unfold slot_of, is_all_day_event in *. destruct (ev_start ev); [discriminate|reflexivity]. }
  rewrite Hsl. reflexivity.
Qed.

(** X20.  An event without a title makes the report of its day raise
    [KeyError] for the key [summary], whatever the other events are. *)
Theorem date_section_untitled_event (date_str day month year : string)
    (events : list cal_event) :
  unpack_date date_str = Ok (day, month, year) ->
  events_list (year ++ "-" ++ month ++ "-" ++ day ++ "T00:00:00Z")
              (year ++ "-" ++ month ++ "-" ++ day ++ "T23:59:59Z")
  = Ok (Some events) ->
  Exists (fun ev => summary ev = None) events ->
  date_section int_of_str events_list date_str = Raise (KeyError "'summary'").
Proof.
  intros Hu Hev Hex. unfold date_section.
  rewrite Hu. cbn [bind]. rewrite Hev. cbn [bind].
  destruct events as [|ev0 events0]; [inversion Hex|].
  now rewrite (describe_events_untitled _ Hex).
Qed.

(** X21.  The report is all or nothing: when the section of one date
    raises, [get_calendar_events] raises that exception and returns no
    text, even though the sections of the dates before it were computed. *)
Theorem get_calendar_events_all_or_nothing (before after : list string)
    (date_str b : string) (e : exn)
    (gmail_token : Credentials.token_arg) (env_token : option string)
    (file : Credentials.token_file) (creds : Credentials.credentials) :
  Credentials.get_credentials json_loads gmail_token env_token file = Ok creds ->
  date_sections int_of_str events_list before = Ok b ->
  date_section int_of_str events_list date_str = Raise e ->
  get_calendar_events int_of_str json_loads events_list
    (before ++ date_str :: after) gmail_token env_token file
  = Raise e.
Proof.
  intros Hc Hb He. unfold get_calendar_events. rewrite Hc. cbn [bind].
  assert (G : date_sections int_of_str events_list (before ++ date_str :: after)
              = Raise e).
  { revert b Hb. induction before as [|d before IH]; simpl; intros b Hb.
    - now rewrite He.
    - destruct (date_section int_of_str events_list d); simpl in *; [|discriminate].
      destruct (date_sections int_of_str events_list before) as [bs|]; simpl in *;
        [|discriminate].
      now rewrite (IH bs eq_refl). }
  now rewrite G.
Qed.

End WithLibraries.

Lemma split_dash_dash_free (s : string) :
  dash_free s = true -> split_dash s = [s].
Proof.
  induction s as [|c s IH]; simpl; [reflexivity|].
  destruct (Ascii.eqb c "-"); simpl; [discriminate|].
  intros H. now rewrite (IH H).
Qed.

Lemma split_dash_app (a b : string) :
  dash_free a = true -> split_dash (a ++ String "-" b) = a :: split_dash b.
Proof.
  induction a as [|c a IH]; simpl; [reflexivity|].
  destruct (Ascii.eqb c "-"); simpl; [discriminate|].
  intros H. now rewrite (IH H).
Qed.

Lemma split_dash_cons (s p : string) (ps : list string) :
  split_dash s = p :: ps ->
  dash_free p = true /\
  match ps with
  | [] => s = p
  | _ :: _ => exists rest, s = p ++ "-" ++ rest /\ split_dash rest = ps
  end.
Proof.
  revert p ps. induction s as [|c s IH]; simpl; intros p ps.
  - intros [= <- <-]. now split.
  - destruct (Ascii.eqb c "-") eqn:E.
    + apply Ascii.eqb_eq in E. subst c. intros [= <- <-]. split; [reflexivity|].
      destruct (split_dash s) eqn:Es.
      * destruct s; simpl in Es; [discriminate|].
        destruct (Ascii.eqb a "-"); [discriminate|].
        destruct (split_dash s); discriminate.
      * now exists s.
    + destruct (split_dash s) as [|q qs] eqn:Es.
      * intros [= <- <-]. destruct s; simpl in Es; [discriminate|].
        destruct (Ascii.eqb a "-"); [discriminate|].
        destruct (split_dash s); discriminate.
      * intros [= <- <-]. destruct (IH q qs eq_refl) as [Hq Hrest].
        split; [simpl; now rewrite E, Hq|].
        destruct qs as [|q' qs'].
        -- now rewrite Hrest.
        -- destruct Hrest as (rest & -> & Hr). now exists rest.
Qed.

(** X22.  A date is accepted exactly when it consists of three parts
    separated by two dashes, none of the parts containing a dash; the
    parts are taken as day, month and year in that order.  Any other text
    makes the unpacking raise. *)
Theorem unpack_date_iff (date_str day month year : string) :
  unpack_date date_str = Ok (day, month, year) <->
  date_str = day ++ "-" ++ month ++ "-" ++ year /\
  dash_free day = true /\ dash_free month = true /\ dash_free year = true.
Proof.
  unfold unpack_date. split.
  - destruct (split_dash date_str) as [|p1 [|p2 [|p3 [|p4 ps]]]] eqn:Es;
      try discriminate.
    intros [= <- <- <-].
    destruct (split_dash_cons _ _ _ Es) as (H1 & rest1 & -> & Es1).
    destruct (split_dash_cons _ _ _ Es1) as (H2 & rest2 & -> & Es2).
    destruct (split_dash_cons _ _ _ Es2) as (H3 & ->).
    repeat split; assumption.
  - intros (-> & Hd & Hm & Hy).
    change (day ++ "-" ++ month ++ "-" ++ year)
      with (day ++ String "-" (month ++ String "-" year)).
    now rewrite (split_dash_app _ _ Hd), (split_dash_app _ _ Hm),
      (split_dash_dash_free _ Hy).
Qed.

Import Examples.

Lemma two_meetings_well_formed : Forall well_formed (timed_slots two_meetings).
Proof. repeat constructor. Qed.

Lemma day_slots_ascending_witness :
  exists slots,
    day_slots example_int "2024" "01" "01" two_meetings = Ok slots /\
    chain_from (at_ 9 0 None) slots.
Proof.
  exact (day_slots_ascending example_int "2024" "01" "01" two_meetings
           (at_ 9 0 None) (at_ 17 0 None) two_meetings_well_formed
           eq_refl eq_refl).
Defined.

Lemma day_slots_avoid_busy_witness :
  exists slots,
    day_slots example_int "2024" "01" "01" two_meetings = Ok slots /\
    forall s iv, In s slots -> In iv (timed_slots two_meetings) -> apart s iv.
Proof.
  exact (day_slots_avoid_busy example_int "2024" "01" "01" two_meetings
           (at_ 9 0 None) (at_ 17 0 None) two_meetings_well_formed
           eq_refl eq_refl).
Defined.

Lemma day_slots_within_hours_witness :
  exists slots,
    day_slots example_int "2024" "01" "01" two_meetings = Ok slots /\
    Forall (fun s => naive_le (at_ 9 0 None) (fst s) /\
                     naive_le (snd s) (at_ 17 0 None)) slots.
Proof.
  apply (day_slots_within_hours example_int "2024" "01" "01" two_meetings
           (at_ 9 0 None) (at_ 17 0 None) two_meetings_well_formed
           eq_refl eq_refl).
  repeat constructor.
Defined.

Example day_slots_two_meetings :
  day_slots example_int "2024" "01" "01" two_meetings
  = Ok [(at_ 9 0 None, at_ 10 0 None); (at_ 11 0 None, at_ 14 0 None);
        (at_ 15 30 None, at_ 17 0 None)].
Proof. reflexivity. Qed.

Lemma date_section_raises_on_offset_witness :
  exists e, date_section example_int utc_calendar "01-01-2024" = Raise e.
Proof.
  apply (date_section_raises_on_offset example_int utc_calendar
           "01-01-2024" "01" "01" "2024"
           [timed "Standup" (at_ 10 0 (Some 0%Z)) (at_ 11 0 (Some 0%Z))]
           (timed "Standup" (at_ 10 0 (Some 0%Z)) (at_ 11 0 (Some 0%Z)))
           eq_refl eq_refl).
  - repeat constructor.
  - now left.
  - left. discriminate.
Defined.

Lemma date_section_all_day_witness :
  exists lines,
    describe_events
      [CalEvent (Some "Holiday") (Date 2024 1 1) (Date 2024 1 2);
       timed "Call" (at_ 10 0 (Some 0%Z)) (at_ 11 0 (Some 0%Z))]
    = Ok (lines,
          map slot_of
            [CalEvent (Some "Holiday") (Date 2024 1 1) (Date 2024 1 2);
             timed "Call" (at_ 10 0 (Some 0%Z)) (at_ 11 0 (Some 0%Z))]) /\
    date_section example_int holiday_calendar "01-01-2024"
    = Ok (("Events for " ++ "01-01-2024" ++ ":" ++ nl) ++ lines
            ++ "  Available: None (all-day events)" ++ nl ++ nl).
Proof.
  apply (date_section_all_day example_int holiday_calendar
           "01-01-2024" "01" "01" "2024" _ eq_refl eq_refl).
  - repeat constructor; discriminate.
  - reflexivity.
Defined.

Lemma date_section_untitled_event_witness :
  date_section example_int untitled_calendar "01-01-2024"
  = Raise (KeyError "'summary'").
Proof.
  apply (date_section_untitled_event example_int untitled_calendar
           "01-01-2024" "01" "01" "2024" _ eq_refl eq_refl).
  now left.
Defined.

Lemma get_calendar_events_all_or_nothing_witness :
  get_calendar_events example_int Credentials.example_loads busy_calendar
    (["01-01-2024"] ++ "2024-01" :: ["02-01-2024"]) token_P None
    Credentials.FileAbsent
  = Raise (ValueError "not enough values to unpack (expected 3, got 2)").
Proof.
  exact (get_calendar_events_all_or_nothing example_int
           Credentials.example_loads busy_calendar ["01-01-2024"] ["02-01-2024"]
           "2024-01" _ _ token_P None Credentials.FileAbsent _
           eq_refl eq_refl eq_refl).
Defined.

End CalendarExtra.

(** ** [parse_gmail] and [format_for_display] *)
Module UtilsExtra.
Import Py Credentials Utils Stating.

Lemma dict_index_present (d : list (string * json)) (key : string) :
  In key (map fst d) -> exists v, dict_index d key = Ok v.
Proof.
  induction d as [|[k v] d IH]; simpl; [intros []|].
  destruct (String.eqb k key) eqn:E.
  - intros _. now exists v.
  - intros [H|H]; [|now apply IH].
    apply String.eqb_neq in E. contradiction.
Qed.

Lemma dict_index_absent (d : list (string * json)) (key : string) (e : exn) :
  dict_index d key = Raise e ->
  ~ In key (map fst d) /\ e = KeyError ("'" ++ key ++ "'").
Proof.
  induction d as [|[k v] d IH]; simpl.
  - intros [= <-]. split; [tauto|reflexivity].
  - destruct (String.eqb k key) eqn:E; [discriminate|].
    intros H. destruct (IH H) as [Hn He]. split; [|exact He].
    apply String.eqb_neq in E. intros [Hk|Hk]; [contradiction|now apply Hn].
Qed.

Lemma dict_get_absent (d : list (string * json)) (key : string) (default : json) :
  ~ In key (map fst d) -> dict_get d key default = default.
Proof.
  induction d as [|[k v] d IH]; simpl; [reflexivity|].
  intros H. destruct (String.eqb k key) eqn:E.
  - apply String.eqb_eq in E. exfalso. apply H. now left.
  - apply IH. tauto.
Qed.

(** X23.  [parse_gmail] succeeds exactly when the input has the five keys
    from, to, subject, body and id; when it fails, it raises [KeyError]
    naming one of these keys that the input lacks. *)
Theorem parse_gmail_requires_five_keys (email_input : list (string * json)) :
  (Forall (fun k => In k (map fst email_input)) gmail_keys ->
   exists fields, parse_gmail email_input = Ok fields) /\
  (forall e, parse_gmail email_input = Raise e ->
     exists k, In k gmail_keys /\ ~ In k (map fst email_input) /\
               e = KeyError ("'" ++ k ++ "'")).
Proof.
  unfold parse_gmail, gmail_keys. split.
  - intros H.
    repeat match goal with
           | H : Forall _ (_ :: _) |- _ => inversion H; clear H; subst
           end.
    repeat match goal with
           | H : In ?k (map fst email_input) |- _ =>
               destruct (dict_index_present _ _ H) as [? ->]; clear H
           end.
    simpl. eexists; reflexivity.
  - intros e.
    destruct (dict_index email_input "from") as [v1|e1] eqn:E1; simpl;
      [|intros [= <-]; exists "from"; split; [simpl; tauto|];
        now apply dict_index_absent].
    destruct (dict_index email_input "to") as [v2|e2] eqn:E2; simpl;
      [|intros [= <-]; exists "to"; split; [simpl; tauto|];
        now apply dict_index_absent].
    destruct (dict_index email_input "subject") as [v3|e3] eqn:E3; simpl;
      [|intros [= <-]; exists "subject"; split; [simpl; tauto|];
        now apply dict_index_absent].
    destruct (dict_index email_input "body") as [v4|e4] eqn:E4; simpl;
      [|intros [= <-]; exists "body"; split; [simpl; tauto|];
        now apply dict_index_absent].
    destruct (dict_index email_input "id") as [v5|e5] eqn:E5; simpl;
      [discriminate|intros [= <-]; exists "id"; split; [simpl; tauto|];
        now apply dict_index_absent].
Qed.

Section WithFormatting.
Variable repr : json -> string.
Variable dumps_indent2 : json -> string.

Local Abbreviation format_for_display := (format_for_display repr dumps_indent2).

(** X24.  A [schedule_meeting] call whose arguments have no [attendees]
    entry cannot be displayed: joining the missing value raises
    [TypeError]. *)
Theorem format_for_display_needs_attendees (tc : tool_call)
    (d : list (string * json)) :
  name tc = "schedule_meeting" ->
  args tc = JDict d ->
  ~ In "attendees" (map fst d) ->
  format_for_display tc = Raise (TypeError "can only join an iterable").
Proof.
  intros Hn Ha Hd. unfold Utils.format_for_display, arg. rewrite Hn, Ha. simpl.
  now rewrite (dict_get_absent _ _ _ Hd).
Qed.

(** X25.  For the three tool names with their own layout, arguments that
    are not a dict make the display raise [AttributeError]; for every
    other tool name the display never fails, whatever the arguments. *)
Theorem format_for_display_non_dict_args (tc : tool_call) :
  (In (name tc) ["write_email"; "schedule_meeting"; "Question"] ->
   (forall d, args tc <> JDict d) ->
   format_for_display tc
   = Raise (AttributeError
              ("'" ++ type_name (args tc) ++ "' object has no attribute 'get'"))) /\
  (~ In (name tc) ["write_email"; "schedule_meeting"; "Question"] ->
   exists display, format_for_display tc = Ok display).
Proof.
  unfold Utils.format_for_display, arg. split.
  - intros Hn Hd.
    assert (G : forall k, get (args tc) k JNull
                = Raise (AttributeError
                           ("'" ++ type_name (args tc)
                              ++ "' object has no attribute 'get'"))).
    { intros k. destruct (args tc) as [| | | | |d]; try reflexivity.
      now contradiction (Hd d). }
    destruct Hn as [<-|[<-|[<-|[]]]]; simpl; now rewrite G.
  - intros Hn.
    destruct (String.eqb (name tc) "write_email") eqn:E1;
      [apply String.eqb_eq in E1; exfalso; apply Hn; rewrite E1; simpl; auto|].
    destruct (String.eqb (name tc) "schedule_meeting") eqn:E2;
      [apply String.eqb_eq in E2; exfalso; apply Hn; rewrite E2; simpl; auto|].
    destruct (String.eqb (name tc) "Question") eqn:E3;
      [apply String.eqb_eq in E3; exfalso; apply Hn; rewrite E3; simpl; auto|].
    destruct (args tc); eexists; reflexivity.
Qed.

End WithFormatting.

Lemma format_for_display_needs_attendees_witness :
  format_for_display (fun _ => "") (fun _ => "")
    (ToolCall "schedule_meeting" (JDict [("subject", JStr "Sync")]))
  = Raise (TypeError "can only join an iterable").
Proof.
  apply (format_for_display_needs_attendees (fun _ => "") (fun _ => "")
           (ToolCall "schedule_meeting" (JDict [("subject", JStr "Sync")]))
           [("subject", JStr "Sync")] eq_refl eq_refl).
  simpl. intros [H|[]]. discriminate.
Defined.

Example format_for_display_write_email :
  format_for_display (fun _ => "") (fun _ => "")
    (ToolCall "write_email"
       (JDict [("to", JStr "bob@x.org"); ("content", JStr "Hi Bob")]))
  = Ok ("# Email Draft" ++ nl ++
        "        **To**: bob@x.org" ++ nl ++
        "        **Subject**: None" ++ nl ++
        nl ++
        "        Hi Bob" ++ nl ++
        "        ").
Proof. reflexivity. Qed.

End UtilsExtra.

(** ** [get_tools] and [get_tools_by_name] *)
Module BaseExtra.
Import Py Base Stating.

Lemma lookup_named (d : dict base_tool) (n : string) (t : base_tool) :
  Forall (fun kv => fst kv = tool_name (snd kv)) d ->
  lookup d n = Some t -> tool_name t = n.
Proof.
  induction 1 as [|[k v] d Hk Hd IH]; simpl; [discriminate|].
  destruct (String.eqb k n) eqn:E.
  - intros [= <-]. apply String.eqb_eq in E. simpl in Hk. congruence.
  - exact IH.
Qed.

Lemma gmail_tools_named :
  Forall (fun kv => fst kv = tool_name (snd kv)) gmail_tools.
Proof. repeat constructor. Qed.

Lemma has_key_iff {V : Type} (d : dict V) (n : string) :
  existsb (String.eqb n) (map fst d) = true <-> exists v, lookup d n = Some v.
Proof.
  induction d as [|[k v] d IH]; simpl.
  - split; [discriminate|intros [v [=]]].
  - rewrite (String.eqb_sym n k). destruct (String.eqb k n); simpl.
    + split; [intros _; now exists v|reflexivity].
    + exact IH.
Qed.

(** X26.  Without [include_gmail=True] no tool is ever returned, whatever
    names are asked for; so [get_tools()] is empty and
    [get_tools_by_name()] called without a list is the empty dict. *)
Theorem get_tools_default_is_empty (import_ok : bool)
    (tool_names : option (list string)) :
  get_tools import_ok tool_names false = [] /\
  get_tools_by_name import_ok None = [].
Proof.
  unfold get_tools_by_name, get_tools. split; [|reflexivity].
  destruct tool_names as [names|]; [|reflexivity].
  induction names as [|n names IH]; simpl; [reflexivity|exact IH].
Qed.

(** X27.  With the Gmail tools loaded, asking for names returns the tools
    of exactly the known names among them, in the order asked and as often
    as asked; unknown names are dropped without an error. *)
Theorem get_tools_selects_known_names (names : list string) :
  map tool_name (get_tools true (Some names) true)
  = filter is_gmail_tool_name names.
Proof.
  change (get_tools true (Some names) true)
    with (flat_map (fun name => match lookup gmail_tools name with
                                | Some t => [t]
                                | None => []
                                end) names).
  induction names as [|n names IH]; [reflexivity|].
  cbn [flat_map filter]. rewrite map_app, IH.
  destruct (lookup gmail_tools n) as [t|] eqn:L.
  - pose proof (lookup_named _ _ _ gmail_tools_named L) as Hn.
    assert (E : is_gmail_tool_name n = true)
      by (apply has_key_iff; now exists t).
    rewrite E. simpl. now rewrite Hn.
  - destruct (is_gmail_tool_name n) eqn:E; [|reflexivity].
    apply has_key_iff in E as [t Ht]. rewrite Ht in L. discriminate.
Qed.

Lemma lookup_set_item {V : Type} (d : dict V) (k k' : string) (v : V) :
  lookup (set_item d k v) k'
  = if String.eqb k k' then Some v else lookup d k'.
Proof.
  induction d as [|[a w] d IH]; simpl.
  - reflexivity.
  - destruct (String.eqb a k) eqn:E; simpl.
    + apply String.eqb_eq in E. subst a.
      destruct (String.eqb k k'); reflexivity.
    + rewrite IH. destruct (String.eqb a k') eqn:E'; [|reflexivity].
      apply String.eqb_eq in E'. subst a. now rewrite String.eqb_sym, E.
Qed.

Lemma find_snoc {A : Type} (p : A -> bool) (l : list A) (a : A) :
  find p (l ++ [a])
  = match find p l with
    | Some b => Some b
    | None => if p a then Some a else None
    end.
Proof.
  induction l as [|b l IH]; simpl; [reflexivity|].
  destruct (p b); [reflexivity|exact IH].
Qed.

Lemma lookup_fold_last (tools : list base_tool) (d : dict base_tool) (n : string) :
  lookup (fold_left (fun d u => set_item d (tool_name u) u) tools d) n
  = match find (fun t => String.eqb (tool_name t) n) (rev tools) with
    | Some t => Some t
    | None => lookup d n
    end.
Proof.
  revert d. induction tools as [|a tools IH]; intros d; simpl; [reflexivity|].
  rewrite IH, find_snoc, lookup_set_item.
  destruct (find _ (rev tools)); [reflexivity|].
  destruct (String.eqb (tool_name a) n); reflexivity.
Qed.

(** X28.  In the dict built by [get_tools_by_name] from a list of tools,
    a name is bound to the last tool of the list that has this name, and
    is unbound when no tool of the list has it.  Hence a tool of the list
    is found under its own name exactly when no later tool of the list
    shares that name; in particular always when the names in the list are
    distinct. *)
Theorem get_tools_by_name_lookup (import_ok : bool) (tools : list base_tool) :
  (forall n,
     lookup (get_tools_by_name import_ok (Some tools)) n
     = find (fun t => String.eqb (tool_name t) n) (rev tools)) /\
  (forall t,
     In t tools ->
     (forall u, In u tools -> tool_name u = tool_name t -> u = t) ->
     lookup (get_tools_by_name import_ok (Some tools)) (tool_name t) = Some t).
Proof.
  assert (H : forall n,
             lookup (get_tools_by_name import_ok (Some tools)) n
             = find (fun t => String.eqb (tool_name t) n) (rev tools)).
  { intros n. unfold get_tools_by_name. rewrite lookup_fold_last.
    destruct (find _ (rev tools)); reflexivity. }
  split; [exact H|].
  intros t Hin Huniq. rewrite H.
  destruct (find (fun u => String.eqb (tool_name u) (tool_name t)) (rev tools))
    as [u|] eqn:F.
  - apply find_some in F as [Hu Hn]. apply in_rev in Hu.
    apply String.eqb_eq in Hn. now rewrite (Huniq u Hu Hn).
  - apply in_rev in Hin. pose proof (find_none _ _ F t Hin) as Hf.
    simpl in Hf. rewrite String.eqb_refl in Hf. discriminate.
Qed.

(** Two tools named "send_email_tool": the later one is the one kept. *)
Lemma get_tools_by_name_lookup_witness :
  lookup (get_tools_by_name true
            (Some [SendEmailTool; FetchEmailsTool; OtherTool "send_email_tool" 7]))
    "send_email_tool"
  = find (fun t => String.eqb (tool_name t) "send_email_tool")
      (rev [SendEmailTool; FetchEmailsTool; OtherTool "send_email_tool" 7]).
Proof.
  exact (proj1 (get_tools_by_name_lookup true
                  [SendEmailTool; FetchEmailsTool; OtherTool "send_email_tool" 7])
           "send_email_tool").
Defined.

Example get_tools_by_name_later_tool_wins :
  get_tools_by_name true
    (Some [SendEmailTool; FetchEmailsTool; OtherTool "send_email_tool" 7])
  = [("send_email_tool", OtherTool "send_email_tool" 7);
     ("fetch_emails_tool", FetchEmailsTool)].
Proof. reflexivity. Qed.

Example get_tools_by_requested_names :
  get_tools true (Some ["send_email_tool"; "search"; "fetch_emails_tool";
                        "send_email_tool"]) true
  = [SendEmailTool; FetchEmailsTool; SendEmailTool].
Proof. reflexivity. Qed.

End BaseExtra.
